(** * cw_farmer_v5.py: a shallow embedding and its verified properties

    The development follows the layout of the Python source:
    Python values and exceptions, the configuration constants, the shared
    token registry ([SharedState]), the HTTP client ([HttpClient]), the
    challenge solver ([LLMClient]), the moment scheduler ([MomentsManager]),
    the account worker ([AccountFarmer]) and the status snapshot
    ([DashboardServer]).  Definitions come first, theorems follow.

    Conventions of the embedding.
    - A Python [int] is a [Z]; a Python [str] is a [string] whose characters
      are the code points below 256.
    - A JSON document / Python dynamic value is a [pyval]; the API only
      carries integer numbers, so JSON numbers are integers.
    - A [dict] with string keys is a [gmap string pyval]; a [set] of ints is
      a [gset Z]; a [list] is a [list].
    - Effects (the registry, the worker objects, the network, the random
      generator and the clock) are threaded through a state-and-exception
      monad [M] over a [World]; an exception keeps the state reached so far.
    - The outside world is an oracle indexed by the number of earlier uses
      (the k-th reply of the server, the k-th random draw, the k-th reading
      of the clock), so that a theorem quantified over every [World] holds
      for every behaviour of the server, the generator and the clock.
    - Console output ([print]) and sleeping are not modelled; a coroutine is
      run to completion. *)

From Stdlib Require Import ZArith QArith String Ascii.
From stdpp Require Import base gmap sets list strings pretty.
From Equations Require Import Equations.

#[local] Open Scope Z_scope.

(** ** Python values *)

Module Py.

(** Values produced by [json.loads] and stored in dynamically typed
    fields. *)
#[warnings="-register-all"]
Inductive pyval : Type :=
| PNone
| PBool (b : bool)
| PInt (z : Z)
| PStr (s : string)
| PList (l : list pyval)
| PDict (d : gmap string pyval).

(** Exceptions.  [HTTPError] carries the status code, [str(e)] and what
    [e.read().decode()] gives ([None] when reading or decoding raises);
    every other subclass of [Exception] is a class name with [str(e)]. *)
Inductive exn : Type :=
| HTTPError (code : Z) (msg : string) (body : option string)
| PyErr (cls : string) (msg : string).

Definition str_exn (e : exn) : string :=
  match e with
  | HTTPError _ msg _ => msg
  | PyErr _ msg => msg
  end.

Inductive res (A : Type) : Type :=
| Ok (a : A)
| Raise (e : exn).
Arguments Ok {A} a.
Arguments Raise {A} e.

Definition AttributeError : exn :=
  PyErr "AttributeError" "object has no attribute 'get'".
Definition TypeError : exn :=
  PyErr "TypeError" "unsupported operand type(s)".

(** [bool(v)] *)
Definition truthy (v : pyval) : bool :=
  match v with
  | PNone => false
  | PBool b => b
  | PInt z => negb (z =? 0)
  | PStr s => negb (String.eqb s "")
  | PList l => match l with [] => false | _ :: _ => true end
  | PDict d => match map_to_list d with [] => false | _ :: _ => true end
  end.

(** [v == "literal"] *)
Definition eq_str (v : pyval) (s : string) : bool :=
  match v with
  | PStr t => String.eqb t s
  | _ => false
  end.

(** [v == n] for an int literal [n]: an int compares by value and a bool
    as 0 or 1. *)
Definition eq_int (v : pyval) (n : Z) : bool :=
  match v with
  | PInt z => z =? n
  | PBool b => Z.b2z b =? n
  | _ => false
  end.

(** [v in (n1, n2, ...)] *)
Definition in_ints (v : pyval) (ns : list Z) : bool :=
  existsb (eq_int v) ns.

(** [v.get(k)], an [AttributeError] when [v] is not a dict. *)
Definition get (v : pyval) (k : string) : res pyval :=
  match v with
  | PDict d => Ok (default PNone (d !! k))
  | _ => Raise AttributeError
  end.

(** [v.get(k, dflt)] *)
Definition get_default (v : pyval) (k : string) (dflt : pyval) : res pyval :=
  match v with
  | PDict d => Ok (default dflt (d !! k))
  | _ => Raise AttributeError
  end.


End Py.
Import Py.

(** ** Configuration *)

Definition TRUST_PER_MOMENT : Z := 6.
Definition MAX_MOMENTS : Z := 5.
Definition MOMENT_COOLDOWN_HOURS : Z := 5.
Definition TOKEN_ID_MIN : Z := 25.
Definition TOKEN_ID_MAX : Z := 1024.

Definition API_INSCRIBE : string := "https://work.clawplaza.ai/skill/inscribe".
Definition API_BALANCE : string := "https://work.clawplaza.ai/skill/cw".
Definition API_SOCIAL : string := "https://work.clawplaza.ai/skill/social".

(** ** Shared token registry *)

Module SharedState.

Record t : Type := mk {
  tried_tokens : gset Z;
  free_tokens : list Z;
  moment_states : gmap string pyval
}.

(** [__init__] *)
Definition init : t := mk ∅ [] ∅.

(** [list.remove(x)]: deletes the first occurrence only. *)
Fixpoint list_remove (x : Z) (l : list Z) : list Z :=
  match l with
  | [] => []
  | y :: l' => if bool_decide (y = x) then l' else y :: list_remove x l'
  end.

Definition mark_taken (token_id : Z) (s : t) : t :=
  let tried := tried_tokens s ∪ {[token_id]} in
  if bool_decide (token_id ∈ free_tokens s)
  then mk tried (list_remove token_id (free_tokens s)) (moment_states s)
  else mk tried (free_tokens s) (moment_states s).

Definition mark_free (token_id : Z) (s : t) : t :=
  if bool_decide (token_id ∉ tried_tokens s) && bool_decide (token_id ∉ free_tokens s)
  then mk (tried_tokens s) (token_id :: free_tokens s) (moment_states s)
  else s.

(** [set(range(TOKEN_ID_MIN, TOKEN_ID_MAX + 1))] *)
Definition valid_ids : gset Z :=
  list_to_set (seqZ TOKEN_ID_MIN (TOKEN_ID_MAX + 1 - TOKEN_ID_MIN)).

(** [list(set(range(...)) - self.tried_tokens)].  Python leaves the order
    of the list open; the model takes the order of [elements]. *)
Definition available (s : t) : list Z :=
  elements (valid_ids ∖ tried_tokens s).

(** The two mutators, as a trace of calls. *)
Inductive call : Type :=
| MarkTaken (token_id : Z)
| MarkFree (token_id : Z).

Definition step (s : t) (c : call) : t :=
  match c with
  | MarkTaken i => mark_taken i s
  | MarkFree i => mark_free i s
  end.

Definition run (s : t) (cs : list call) : t := foldl step s cs.

(** The registry invariant of the specification. *)
Definition disjoint (s : t) : Prop :=
  ∀ i, i ∈ tried_tokens s → i ∉ free_tokens s.

(** The invariant that the two mutators keep: the specification's
    disjointness together with a free list without repetition. *)
Definition inv (s : t) : Prop := disjoint s ∧ NoDup (free_tokens s).

(** [save_moment_state]; [iso] is the text that [last_post.isoformat()]
    gives for the clock reading [last_post]. *)
Definition save_moment_state (iso : Z → string) (account_id : string)
    (posted : Z) (last_post : option Z) (s : t) : t :=
  mk (tried_tokens s) (free_tokens s)
     (<[account_id :=
          PDict (<["posted" := PInt posted]>
                 (<["last_post" := match last_post with
                                   | Some time => PStr (iso time)
                                   | None => PNone
                                   end]> ∅))]>
        (moment_states s)).

(** [get_moment_state]: the empty dict for an unknown account. *)
Definition get_moment_state (account_id : string) (s : t) : pyval :=
  default (PDict ∅) (moment_states s !! account_id).

End SharedState.

(** ** The world: objects, oracles and the monad of effects *)

(** A request as [HttpClient.request] builds it: the JSON payload ([None]
    for the empty body sent when [data] is falsy), the [X-API-Key] header
    and the method. *)
Record Request : Type := mkRequest {
  req_url : string;
  req_payload : option pyval;
  req_api_key : string;
  req_method : string
}.

(** What [_build_opener] returns. *)
Inductive opener : Type :=
| Direct
| ViaProxy (proxy : string).

(** An open HTTP response; [read_decode] is what
    [response.read().decode()] gives. *)
Record Response : Type := mkResponse {
  read_decode : res string
}.

(** [AccountStats] (the [start_time] is the clock reading at construction).
    The three fields refreshed from server replies hold whatever value the
    reply carried. *)
Record AccountStats : Type := mkStats {
  stats_id : string;
  trust_score : pyval;
  cw_balance : pyval;
  cw_staked : pyval;
  total_mines : Z;
  moments_posted : Z;
  challenges_passed : Z;
  challenges_failed : Z;
  tokens_taken : Z;
  status : string;
  last_moment : option Z;
  next_moment : option Z;
  start_time : Z
}.

(** The fields of [HttpClient] that are read after construction. *)
Record HttpClient : Type := mkClient {
  api_key : string;
  proxy : option string
}.

(** [MomentsManager]: [last_post] is a clock reading in microseconds. *)
Record MomentsManager : Type := mkMoments {
  posted : Z;
  last_post : option Z
}.

(** [AccountFarmer] *)
Record AccountFarmer : Type := mkFarmer {
  id : string;
  client : HttpClient;
  moments : MomentsManager;
  stats : AccountStats;
  running : bool;
  style : string
}.

(** The oracles.  [_build_prompt] is a pure function of the prompt and the
    style, so the language-model service is asked with these two. *)
Record Env : Type := mkEnv {
  json_loads : string → res pyval;
  opener_open : nat → opener → Request → Z → res Response;
  llm_urlopen : nat → string → string → res Response;
  rand_index : nat → nat;
  rand_half : nat → bool;
  clock : nat → Z
}.

(** The mutable state: the single [SharedState], the worker objects (a
    worker is named by its index), the request counter of the shared
    [LLMClient], and how often each oracle has been used. *)
Record World : Type := mkWorld {
  env : Env;
  shared : SharedState.t;
  farmers : nat → AccountFarmer;
  request_count : Z;
  net_calls : nat;
  llm_calls : nat;
  rng_calls : nat;
  clock_reads : nat
}.

Definition M (A : Type) : Type := World → res A * World.

Module Monad.

Definition ret {A} (a : A) : M A := λ w, (Ok a, w).

Definition bind {A B} (m : M A) (k : A → M B) : M B :=
  λ w, match m w with
       | (Ok a, w') => k a w'
       | (Raise e, w') => (Raise e, w')
       end.

Definition raise {A} (e : exn) : M A := λ w, (Raise e, w).

(** A pure computation that may raise. *)
Definition lift {A} (r : res A) : M A := λ w, (r, w).

(** [try: m except Exception as e: h e] *)
Definition try_except {A} (m : M A) (h : exn → M A) : M A :=
  λ w, match m w with
       | (Ok a, w') => (Ok a, w')
       | (Raise e, w') => h e w'
       end.

Definition gets {A} (f : World → A) : M A := λ w, (Ok (f w), w).
Definition modify (f : World → World) : M unit := λ w, (Ok tt, f w).

End Monad.
Import Monad.

#[global] Instance M_ret : MRet M := @ret.
#[global] Instance M_bind : MBind M := λ A B k m, bind m k.

(** *** Field updates *)

Definition set_shared (s : SharedState.t) (w : World) : World :=
  mkWorld (env w) s (farmers w) (request_count w)
          (net_calls w) (llm_calls w) (rng_calls w) (clock_reads w).

Definition set_farmer (i : nat) (f : AccountFarmer) (w : World) : World :=
  mkWorld (env w) (shared w) (λ j, if decide (j = i) then f else farmers w j)
          (request_count w)
          (net_calls w) (llm_calls w) (rng_calls w) (clock_reads w).

Definition set_request_count (n : Z) (w : World) : World :=
  mkWorld (env w) (shared w) (farmers w) n
          (net_calls w) (llm_calls w) (rng_calls w) (clock_reads w).

Definition set_moments (m : MomentsManager) (f : AccountFarmer) : AccountFarmer :=
  mkFarmer (id f) (client f) m (stats f) (running f) (style f).

Definition set_stats (s : AccountStats) (f : AccountFarmer) : AccountFarmer :=
  mkFarmer (id f) (client f) (moments f) s (running f) (style f).

Definition set_posted (n : Z) (m : MomentsManager) : MomentsManager :=
  mkMoments n (last_post m).

Definition set_last_post (t : option Z) (m : MomentsManager) : MomentsManager :=
  mkMoments (posted m) t.

Definition set_trust_score (v : pyval) (s : AccountStats) : AccountStats :=
  mkStats (stats_id s) v (cw_balance s) (cw_staked s) (total_mines s)
          (moments_posted s) (challenges_passed s) (challenges_failed s)
          (tokens_taken s) (status s) (last_moment s) (next_moment s)
          (start_time s).

Definition set_cw_balance (v : pyval) (s : AccountStats) : AccountStats :=
  mkStats (stats_id s) (trust_score s) v (cw_staked s) (total_mines s)
          (moments_posted s) (challenges_passed s) (challenges_failed s)
          (tokens_taken s) (status s) (last_moment s) (next_moment s)
          (start_time s).

Definition set_total_mines (n : Z) (s : AccountStats) : AccountStats :=
  mkStats (stats_id s) (trust_score s) (cw_balance s) (cw_staked s) n
          (moments_posted s) (challenges_passed s) (challenges_failed s)
          (tokens_taken s) (status s) (last_moment s) (next_moment s)
          (start_time s).

Definition set_challenges_passed (n : Z) (s : AccountStats) : AccountStats :=
  mkStats (stats_id s) (trust_score s) (cw_balance s) (cw_staked s)
          (total_mines s) (moments_posted s) n (challenges_failed s)
          (tokens_taken s) (status s) (last_moment s) (next_moment s)
          (start_time s).

Definition set_challenges_failed (n : Z) (s : AccountStats) : AccountStats :=
  mkStats (stats_id s) (trust_score s) (cw_balance s) (cw_staked s)
          (total_mines s) (moments_posted s) (challenges_passed s) n
          (tokens_taken s) (status s) (last_moment s) (next_moment s)
          (start_time s).

Definition set_tokens_taken (n : Z) (s : AccountStats) : AccountStats :=
  mkStats (stats_id s) (trust_score s) (cw_balance s) (cw_staked s)
          (total_mines s) (moments_posted s) (challenges_passed s)
          (challenges_failed s) n (status s) (last_moment s) (next_moment s)
          (start_time s).

(** [self.stats.<field> = ...] and [self.moments.<field> = ...] for the
    worker [i]. *)
Definition update_stats (i : nat) (f : AccountStats → AccountStats) : M unit :=
  modify (λ w, set_farmer i (set_stats (f (stats (farmers w i))) (farmers w i)) w).

Definition update_moments (i : nat) (f : MomentsManager → MomentsManager) : M unit :=
  modify (λ w, set_farmer i (set_moments (f (moments (farmers w i))) (farmers w i)) w).

(** *** The clock and the random generator *)

Definition clock_advance (w : World) : World :=
  mkWorld (env w) (shared w) (farmers w) (request_count w)
          (net_calls w) (llm_calls w) (rng_calls w) (S (clock_reads w)).

(** [datetime.now()], in microseconds. *)
Definition datetime_now : M Z :=
  λ w, (Ok (clock (env w) (clock_reads w)), clock_advance w).

Definition net_advance (w : World) : World :=
  mkWorld (env w) (shared w) (farmers w) (request_count w)
          (S (net_calls w)) (llm_calls w) (rng_calls w) (clock_reads w).

Definition rng_advance (w : World) : World :=
  mkWorld (env w) (shared w) (farmers w) (request_count w)
          (net_calls w) (llm_calls w) (S (rng_calls w)) (clock_reads w).

Module Random.

(** The element [random.choice(l)] picks for the raw draw [r]; nothing
    for the empty list. *)
Definition pick {A} (l : list A) (r : nat) : option A :=
  l !! (r `mod` length l)%nat.

(** [random.choice(l)]: an [IndexError] on the empty list. *)
Definition choice {A} (l : list A) : M A :=
  λ w, match l with
       | [] => (Raise (PyErr "IndexError" "Cannot choose from an empty sequence"), w)
       | x :: _ =>
           (Ok (default x (pick l (rand_index (env w) (rng_calls w)))),
            rng_advance w)
       end.

(** [random.random() > 0.5] *)
Definition random_gt_half : M bool :=
  λ w, (Ok (rand_half (env w) (rng_calls w)), rng_advance w).

End Random.

(** *** The registry, as the workers reach it *)

Definition mark_taken (token_id : Z) : M unit :=
  modify (λ w, set_shared (SharedState.mark_taken token_id (shared w)) w).

Definition mark_free (token_id : Z) : M unit :=
  modify (λ w, set_shared (SharedState.mark_free token_id (shared w)) w).

Definition get_next_token : M (option Z) :=
  self ← gets shared;
  match SharedState.free_tokens self with
  | front :: _ => mret (Some front)
  | [] =>
      let available := SharedState.available self in
      match available with
      | [] => mret None
      | _ :: _ => token ← Random.choice available; mret (Some token)
      end
  end.

(** ** HTTP client *)

Module Http.

(** [_build_opener]: through the proxy when [self.proxy] is truthy. *)
Definition _build_opener (self : HttpClient) : opener :=
  match proxy self with
  | Some p => if String.eqb p "" then Direct else ViaProxy p
  | None => Direct
  end.

(** [opener.open(req, timeout=timeout)]: one use of the network. *)
Definition opener_open_call (o : opener) (req : Request) (timeout : Z) : M Response :=
  λ w, (opener_open (env w) (net_calls w) o req timeout, net_advance w).

(** [json.loads(text)] *)
Definition loads (text : string) : M pyval :=
  λ w, (json_loads (env w) text, w).

(** [{"error": str(e), "status": e.code}] *)
Definition error_status (msg : string) (code : Z) : pyval :=
  PDict (<["error" := PStr msg]> (<["status" := PInt code]> ∅)).

(** [{"error": str(e)}] *)
Definition error_only (msg : string) : pyval :=
  PDict (<["error" := PStr msg]> ∅).

Definition _execute (self : HttpClient) (req : Request) (timeout : Z) : M pyval :=
  let opener := _build_opener self in
  try_except
    (response ← opener_open_call opener req timeout;
     text ← lift (read_decode response);
     loads text)
    (λ e,
       match e with
       | HTTPError code msg body =>
           try_except
             (match body with
              | None => raise (PyErr "Exception" "read failed")
              | Some error_body =>
                  if String.eqb error_body ""
                  then mret (error_status msg code)
                  else loads error_body
              end)
             (λ _, mret (error_status msg code))
       | PyErr _ msg => mret (error_only msg)
       end).

(** The value [_execute] returns when the network gives its [k]-th reply
    to this request. *)
Definition reply (e : Env) (k : nat) (self : HttpClient) (req : Request)
    (timeout : Z) : pyval :=
  let parsed text fallback :=
    match json_loads e text with
    | Ok v => v
    | Raise x => fallback x
    end in
  let on_error x :=
    match x with
    | HTTPError code msg body =>
        match body with
        | None => error_status msg code
        | Some error_body =>
            if String.eqb error_body "" then error_status msg code
            else parsed error_body (λ _, error_status msg code)
        end
    | PyErr _ msg => error_only msg
    end in
  match opener_open e k (_build_opener self) req timeout with
  | Raise x => on_error x
  | Ok response =>
      match read_decode response with
      | Raise x => on_error x
      | Ok text => parsed text on_error
      end
  end.

(** [request]: the body is empty when [data] is falsy.  The URLs of this
    program are the three constants above, which [urllib.request.Request]
    accepts. *)
Definition request (self : HttpClient) (url : string) (data : pyval)
    (method : string) (timeout : Z) : M pyval :=
  let body := if truthy data then Some data else None in
  _execute self (mkRequest url body (api_key self) method) timeout.

Definition post (self : HttpClient) (url : string) (data : pyval) : M pyval :=
  request self url data "POST" 30.

(** The request [post] sends. *)
Definition post_request (self : HttpClient) (url : string) (data : pyval) : Request :=
  mkRequest url (if truthy data then Some data else None) (api_key self) "POST".

Definition get (self : HttpClient) (url : string) : M pyval :=
  request self url PNone "GET" 30.

End Http.

(** ** Strings *)

Module Str.

Definition code (c : ascii) : N := N_of_ascii c.

(** [str.isspace] and the class [\s], on the code points below 256. *)
Definition is_space (c : ascii) : bool :=
  let n := code c in
  ((9 <=? n) && (n <=? 13) || (28 <=? n) && (n <=? 32)
   || (n =? 133) || (n =? 160))%N.

(** The class [\d], on the code points below 256. *)
Definition is_digit (c : ascii) : bool :=
  let n := code c in ((48 <=? n) && (n <=? 57))%N.

Definition digit_value (c : ascii) : Z := Z.of_N (code c - 48).

Definition lower (c : ascii) : ascii :=
  let n := code c in
  if ((65 <=? n) && (n <=? 90))%N then ascii_of_N (n + 32) else c.

(** Equality of characters under [re.IGNORECASE]. *)
Definition eq_ci (a b : ascii) : bool :=
  bool_decide (lower a = lower b).

(** [s.split()]: the maximal runs of characters that are not white
    space.  The last branch is never taken: a string that begins with
    such a character has a first word. *)
Fixpoint split (s : string) : list string :=
  match s with
  | "" => []
  | String c s' =>
      if is_space c then split s'
      else match s' with
           | "" => [String c ""]
           | String c' _ =>
               if is_space c' then String c "" :: split s'
               else match split s' with
                    | w :: ws => String c w :: ws
                    | [] => [String c ""]
                    end
           end
  end.

(** [sep.join(ws)] *)
Fixpoint join (sep : string) (ws : list string) : string :=
  match ws with
  | [] => ""
  | w :: ws' =>
      match ws' with
      | [] => w
      | _ :: _ => w +:+ sep +:+ join sep ws'
      end
  end.

Fixpoint lstrip_by (p : ascii → bool) (s : string) : string :=
  match s with
  | "" => ""
  | String c s' => if p c then lstrip_by p s' else s
  end.

Fixpoint rstrip_by (p : ascii → bool) (s : string) : string :=
  match s with
  | "" => ""
  | String c s' =>
      match rstrip_by p s' with
      | "" => if p c then "" else String c ""
      | r => String c r
      end
  end.

Definition strip_by (p : ascii → bool) (s : string) : string :=
  rstrip_by p (lstrip_by p s).

(** [s.strip()] *)
Definition strip (s : string) : string := strip_by is_space s.

(** [s.strip(c)] for a one-character argument. *)
Definition strip_char (c : ascii) (s : string) : string :=
  strip_by (λ x, bool_decide (x = c)) s.

(** [int(digits)] for a run of ASCII digits. *)
Definition int_of_digits (ds : string) : Z :=
  fold_left (λ acc c, 10 * acc + digit_value c) (list_ascii_of_string ds) 0.

(** *** The two patterns of [_validate_answer]

    In [exactly\s+(\d+)\s+words] and [between\s+(\d+)\s+and\s+(\d+)\s+words]
    each repeated class is followed by a character outside the class, so
    a match, if there is one at a position, takes every repetition to its
    full length: matching greedily and without backtracking finds it. *)

(** A literal, ignoring case: the rest of [s] after it. *)
Fixpoint literal_ci (lit s : string) : option string :=
  match lit with
  | "" => Some s
  | String a lit' =>
      match s with
      | "" => None
      | String c s' => if eq_ci a c then literal_ci lit' s' else None
      end
  end.

Fixpoint skip_while (p : ascii → bool) (s : string) : string :=
  match s with
  | "" => ""
  | String c s' => if p c then skip_while p s' else s
  end.

Fixpoint take_while (p : ascii → bool) (s : string) : string :=
  match s with
  | "" => ""
  | String c s' => if p c then String c (take_while p s') else ""
  end.

(** [cls+]: the run matched and the rest, when the run is not empty. *)
Definition plus (p : ascii → bool) (s : string) : option (string * string) :=
  match take_while p s with
  | "" => None
  | run => Some (run, skip_while p s)
  end.

(** [exactly\s+(\d+)\s+words] at the start of [s]: group 1. *)
Definition match_exactly (s : string) : option string :=
  s ← literal_ci "exactly" s;
  '(_, s) ← plus is_space s;
  '(n, s) ← plus is_digit s;
  '(_, s) ← plus is_space s;
  _ ← literal_ci "words" s;
  Some n.

(** [between\s+(\d+)\s+and\s+(\d+)\s+words] at the start of [s]: groups
    1 and 2. *)
Definition match_between (s : string) : option (string * string) :=
  s ← literal_ci "between" s;
  '(_, s) ← plus is_space s;
  '(lo, s) ← plus is_digit s;
  '(_, s) ← plus is_space s;
  s ← literal_ci "and" s;
  '(_, s) ← plus is_space s;
  '(hi, s) ← plus is_digit s;
  '(_, s) ← plus is_space s;
  _ ← literal_ci "words" s;
  Some (lo, hi).

(** [re.search]: the match at the leftmost position that has one. *)
Fixpoint search {A} (pattern : string → option A) (s : string) : option A :=
  match pattern s with
  | Some m => Some m
  | None =>
      match s with
      | "" => None
      | String _ s' => search pattern s'
      end
  end.

(** A word, as [split] produces them: not empty and free of white space. *)
Fixpoint no_space (w : string) : bool :=
  match w with
  | "" => true
  | String c w' => negb (is_space c) && no_space w'
  end.

Definition is_word (w : string) : bool :=
  match w with
  | "" => false
  | String _ _ => no_space w
  end.

(** [s.split(sep)] for a one-character separator: never empty. *)
Fixpoint split_on (sep : ascii) (s : string) : list string :=
  match s with
  | "" => [""]
  | String c s' =>
      if Ascii.eqb c sep then "" :: split_on sep s'
      else match split_on sep s' with
           | p :: ps => String c p :: ps
           | [] => [String c ""]
           end
  end.

(** The digits of an int literal: ASCII digits, with single underscores
    between two digits. *)
Fixpoint digits_value (s : string) (acc : Z) : option Z :=
  match s with
  | "" => Some acc
  | String c s' =>
      if is_digit c
      then
        let acc := 10 * acc + digit_value c in
        match s' with
        | "" => Some acc
        | String u s'' =>
            if Ascii.eqb u "_"
            then match s'' with
                 | "" => None
                 | String d _ => if is_digit d then digits_value s'' acc else None
                 end
            else digits_value s' acc
        end
      else None
  end.

(** The text of the message, which quotes the literal, is abbreviated. *)
Definition ValueError : exn :=
  PyErr "ValueError" "invalid literal for int() with base 10".

(** [int(s)] for a text: white space around, a sign, digits.  As for
    [int_of_digits], every run of digits is converted. *)
Definition int (s : string) : res Z :=
  let t := strip s in
  let '(negative, body) :=
    match t with
    | String c r =>
        if Ascii.eqb c "-" then (true, r)
        else if Ascii.eqb c "+" then (false, r)
        else (false, t)
    | "" => (false, t)
    end in
  match body with
  | "" => Raise ValueError
  | String _ _ =>
      match digits_value body 0 with
      | Some n => Ok (if negative then - n else n)
      | None => Raise ValueError
      end
  end.

(** [s.startswith('#')] *)
Definition is_comment (s : string) : bool :=
  match s with
  | String c _ => Ascii.eqb c "#"
  | "" => false
  end.

(** The value of a run of digits read after the value [acc]. *)
Definition parse_digits (acc : Z) (s : string) : Z :=
  fold_left (λ a c, 10 * a + digit_value c) (list_ascii_of_string s) acc.

(** Every character of [s] satisfies [p]. *)
Fixpoint all_chars (p : ascii → bool) (s : string) : bool :=
  match s with
  | "" => true
  | String c s' => p c && all_chars p s'
  end.

End Str.

(** ** Challenge solver *)

Module LLMClient.

(** [words = answer.split(); if len(words) > n: answer = " ".join(words[:n])] *)
Definition truncate_words (n : Z) (answer : string) : string :=
  let words := Str.split answer in
  if Z.of_nat (length words) >? n
  then Str.join " " (take (Z.to_nat n) words)
  else answer.

(** The number a prompt asks for with [exactly N words]. *)
Definition exactly_demand (prompt : string) : option Z :=
  Str.int_of_digits <$> Str.search Str.match_exactly prompt.

(** The upper bound a prompt asks for with [between X and Y words]. *)
Definition between_demand (prompt : string) : option Z :=
  (λ m, Str.int_of_digits (snd m)) <$> Str.search Str.match_between prompt.

(** The conversion [int(...)] of more than 4300 digits raises since
    Python 3.11; the model converts every run of digits. *)
Definition _validate_answer (prompt answer : string) : string :=
  let answer :=
    match exactly_demand prompt with
    | Some n => truncate_words n answer
    | None => answer
    end in
  let answer :=
    match between_demand prompt with
    | Some hi => truncate_words hi answer
    | None => answer
    end in
  answer.

(** [v[k]] for a string key. *)
Definition item (v : pyval) (k : string) : res pyval :=
  match v with
  | PDict d =>
      match d !! k with
      | Some x => Ok x
      | None => Raise (PyErr "KeyError" k)
      end
  | _ => Raise TypeError
  end.

(** [v[0]] *)
Definition item0 (v : pyval) : res pyval :=
  match v with
  | PList (x :: _) => Ok x
  | PList [] => Raise (PyErr "IndexError" "list index out of range")
  | PStr (String c _) => Ok (PStr (String c ""))
  | PStr "" => Raise (PyErr "IndexError" "string index out of range")
  | PDict _ => Raise (PyErr "KeyError" "0")
  | _ => Raise TypeError
  end.

(** [v.strip()] *)
Definition strip_method (v : pyval) : res string :=
  match v with
  | PStr s => Ok (Str.strip s)
  | _ => Raise (PyErr "AttributeError" "object has no attribute 'strip'")
  end.

(** [urllib.request.urlopen(req, timeout=30)]: one use of the service. *)
Definition urlopen (prompt style : string) : M Response :=
  λ w, (llm_urlopen (env w) (llm_calls w) prompt style,
        mkWorld (env w) (shared w) (farmers w) (request_count w)
                (net_calls w) (S (llm_calls w)) (rng_calls w) (clock_reads w)).

Definition fallback_answers : list string :=
  [ "The digital landscape evolves constantly, bringing new opportunities.";
    "Innovation drives progress in unexpected and exciting directions.";
    "Technology transforms our understanding of what's possible.";
    "Each step forward opens doors to new discoveries.";
    "The journey of exploration reveals hidden potentials." ].

Definition _fallback_answer (prompt : string) : M string :=
  Random.choice fallback_answers.

(** The body of the [try] in [solve_challenge]. *)
Definition attempt (prompt style : string) : M string :=
  response ← urlopen prompt style;
  text ← lift (read_decode response);
  result ← Http.loads text;
  choices ← lift (item result "choices");
  first ← lift (item0 choices);
  message ← lift (item first "message");
  content ← lift (item message "content");
  answer ← lift (strip_method content);
  let answer := _validate_answer prompt answer in
  n ← gets request_count;
  modify (set_request_count (n + 1));;
  mret answer.

(** [for attempt in range(2): try: ... return answer except Exception: ...]
    and the fallback after the loop. *)
Fixpoint solve_loop (attempts : list nat) (prompt style : string) : M string :=
  match attempts with
  | [] => _fallback_answer prompt
  | _ :: rest =>
      try_except (attempt prompt style) (λ _, solve_loop rest prompt style)
  end.

(** [_build_prompt] runs before the [try]: its [re.search] raises a
    [TypeError] unless the prompt is a [str]. *)
Definition solve_challenge (prompt : pyval) (style : string) : M string :=
  match prompt with
  | PStr prompt => solve_loop (seq 0 2) prompt style
  | _ => raise (PyErr "TypeError" "expected string or bytes-like object")
  end.

(** [STYLES]: each account gets one by its index. *)
Definition STYLES : list string :=
  [ "poetic and lyrical";
    "casual and conversational";
    "formal and academic";
    "vivid and descriptive";
    "philosophical and reflective";
    "simple and direct";
    "scientific and precise";
    "whimsical and imaginative";
    "enthusiastic and energetic" ].

End LLMClient.

(** ** Moment scheduler *)

(** The emoji of the templates appear as their UTF-8 bytes. *)
Definition MOMENT_TEMPLATES : list string :=
  [ "Just earned some CW tokens! The grind continues 🚀";
    "Working on my trust score today. Steady progress!";
    "Another day of mining. Building that portfolio!";
    "Exploring the ClawPlaza ecosystem. Great community!";
    "Trust score grinding in progress. NFT soon!";
    "CW mining update: making good progress today!";
    "Just passed another milestone! 💪";
    "Learning new strategies. Always improving!";
    "Community highlight: everyone's so supportive!";
    "Weekend mining session active. Let's go!";
    "Reflection on my mining journey. Good progress!";
    "Setting new goals for this week. Level up time!";
    "Appreciating the ClawPlaza community! 🙌";
    "Mining tip: consistency is everything!";
    "Celebrating small wins. Every CW counts!" ].

Module Moments.

(** [timedelta(hours=MOMENT_COOLDOWN_HOURS)], in microseconds. *)
Definition cooldown : Z := MOMENT_COOLDOWN_HOURS * 3600 * 1000000.

(** ["%02d" % n] for [0 <= n]. *)
Definition pad2 (n : Z) : string :=
  if n <? 10 then "0" +:+ pretty n else pretty n.

(** [str(td).split('.')[0]] for a [timedelta] of [us] microseconds. *)
Definition str_timedelta (us : Z) : string :=
  let days := us `div` 86400000000 in
  let seconds := (us `mod` 86400000000) `div` 1000000 in
  let mm := seconds `div` 60 in
  let ss := seconds `mod` 60 in
  let hh := mm `div` 60 in
  let mm := mm `mod` 60 in
  let s := pretty hh +:+ ":" +:+ pad2 mm +:+ ":" +:+ pad2 ss in
  if days =? 0 then s
  else pretty days +:+ " day" +:+ (if Z.abs days =? 1 then "" else "s")
       +:+ ", " +:+ s.

(** [can_post] of the scheduler owned by the worker [i]. *)
Definition can_post (i : nat) : M (bool * string) :=
  self ← gets (λ w, moments (farmers w i));
  if posted self >=? MAX_MOMENTS then mret (false, "Max moments reached")
  else
    match last_post self with
    | Some last =>
        now ← datetime_now;
        let elapsed := now - last in
        if elapsed <? cooldown
        then
          let remaining := cooldown - elapsed in
          mret (false, "Cooldown: " +:+ str_timedelta remaining)
        else mret (true, "Ready")
    | None => mret (true, "Ready")
    end.

Definition emojis : list string :=
  [" 💪"; " 🎯"; " ⚡"; " 🔥"; " ✨"; " 🚀"].

Definition generate_content : M string :=
  content ← Random.choice MOMENT_TEMPLATES;
  more ← Random.random_gt_half;
  if (more : bool)
  then suffix ← Random.choice emojis; mret (content +:+ suffix)
  else mret content.

Definition moment_payload (content : string) : pyval :=
  PDict (<["module" := PStr "moments"]>
         (<["content" := PStr content]>
          (<["visibility" := PStr "public"]> ∅))).

Definition failure (reason : string) : pyval :=
  PDict (<["success" := PBool false]> (<["error" := PStr reason]> ∅)).

Definition posted_report (content : string) (posted_now : Z) : pyval :=
  PDict (<["success" := PBool true]>
         (<["content" := PStr content]>
          (<["trust_earned" := PInt TRUST_PER_MOMENT]>
           (<["moments_remaining" := PInt (MAX_MOMENTS - posted_now)]> ∅)))).

(** [post] of the scheduler owned by the worker [i]. *)
Definition post (i : nat) : M pyval :=
  '(can, reason) ← can_post i;
  if negb can then mret (failure reason)
  else
    content ← generate_content;
    http ← gets (λ w, client (farmers w i));
    result ← Http.post http API_SOCIAL (moment_payload content);
    success ← lift (Py.get result "success");
    if truthy success
    then
      update_moments i (λ m, set_posted (posted m + 1) m);;
      now ← datetime_now;
      update_moments i (set_last_post (Some now));;
      posted_now ← gets (λ w, posted (moments (farmers w i)));
      mret (posted_report content posted_now)
    else mret result.

(** The two methods of the scheduler that callers use, and the world after
    a sequence of such calls, whatever they return. *)
Inductive call : Type :=
| CanPost
| Post.

Definition step (i : nat) (w : World) (c : call) : World :=
  match c with
  | CanPost => snd (can_post i w)
  | Post => snd (post i w)
  end.

Definition run (i : nat) (w : World) (cs : list call) : World :=
  foldl (step i) w cs.

(** [get_next_post_time] of the scheduler owned by the worker [i]. *)
Definition get_next_post_time (i : nat) : M (option Z) :=
  self ← gets (λ w, moments (farmers w i));
  if posted self >=? MAX_MOMENTS then mret None
  else
    match last_post self with
    | Some last => mret (Some (last + cooldown))
    | None => now ← datetime_now; mret (Some now)
    end.

End Moments.

(** ** Account worker *)

Module Farmer.

(** [{**base, **result}]: the entries of [result] win. *)
Definition merged (base : gmap string pyval) (result : pyval) : res pyval :=
  match result with
  | PDict d => Ok (PDict (d ∪ base))
  | _ => Raise TypeError
  end.

Definition failure (error : string) : pyval :=
  PDict (<["success" := PBool false]> (<["error" := PStr error]> ∅)).

Definition server_error : pyval :=
  PDict (<["success" := PBool false]>
         (<["error" := PStr "server_error"]>
          (<["retry_after" := PInt 60]> ∅))).

Definition token_taken (token_id : Z) : pyval :=
  PDict (<["success" := PBool false]>
         (<["error" := PStr "token_taken"]>
          (<["token_id" := PInt token_id]> ∅))).

Definition rate_limited (retry_after : pyval) : pyval :=
  PDict (<["success" := PBool false]>
         (<["error" := PStr "rate_limited"]>
          (<["retry_after" := retry_after]> ∅))).

Definition mined (token_id : Z) : gmap string pyval :=
  <["success" := PBool true]> (<["token_id" := PInt token_id]> ∅).

Definition challenge_passed (token_id : Z) : gmap string pyval :=
  <["success" := PBool true]>
    (<["challenge_cooldown" := PBool true]>
     (<["token_id" := PInt token_id]> ∅)).

Definition inscribe_payload (token_id : Z) : pyval :=
  PDict (<["token_id" := PInt token_id]> ∅).

Definition answer_payload (token_id : Z) (challenge_id : pyval) (answer : string) : pyval :=
  PDict (<["token_id" := PInt token_id]>
         (<["challenge_id" := challenge_id]>
          (<["challenge_answer" := PStr answer]> ∅))).

Definition server_statuses : list Z := [500; 502; 503; 504].

Definition double_quote : ascii := ascii_of_N 34.
Definition single_quote : ascii := ascii_of_N 39.

(** The cleaning of the answer: [strip()], then the double quotes, then
    the single quotes stripped from both ends, then [strip()] again. *)
Definition clean_answer (answer : string) : string :=
  Str.strip (Str.strip_char single_quote
               (Str.strip_char double_quote (Str.strip answer))).

(** [self.stats.cw_balance = result.get("cw_balance", self.stats.cw_balance)]
    and the same for the trust score. *)
Definition refresh_balance (i : nat) (result : pyval) : M unit :=
  old ← gets (λ w, cw_balance (stats (farmers w i)));
  balance ← lift (get_default result "cw_balance" old);
  update_stats i (set_cw_balance balance);;
  old ← gets (λ w, trust_score (stats (farmers w i)));
  trust ← lift (get_default result "trust_score" old);
  update_stats i (set_trust_score trust).

(** [new_ch and new_ch.get("id") and new_ch.get("prompt")] *)
Definition well_formed (new_ch : pyval) : res bool :=
  if truthy new_ch
  then
    match Py.get new_ch "id" with
    | Raise e => Raise e
    | Ok cid =>
        if truthy cid
        then
          match Py.get new_ch "prompt" with
          | Raise e => Raise e
          | Ok p => Ok (truthy p)
          end
        else Ok false
    end
  else Ok false.

Definition get_next_token_id (i : nat) : M (option Z) := get_next_token.

Equations? handle_challenge (i : nat) (token_id : Z)
    (challenge_response : pyval) (depth : Z) : M pyval
    by wf (Z.to_nat (3 - depth)) lt :=
  handle_challenge i token_id challenge_response depth :=
    challenge ← lift (get_default challenge_response "challenge" (PDict ∅));
    challenge_id ← lift (Py.get challenge "id");
    prompt ← lift (get_default challenge "prompt" (PStr ""));
    if negb (truthy challenge_id) || negb (truthy prompt)
    then mret (failure "invalid_challenge")
    else
      self ← gets (λ w, farmers w i);
      answer ← LLMClient.solve_challenge prompt (style self);
      let answer := clean_answer answer in
      result ← Http.post (client self) API_INSCRIBE
                 (answer_payload token_id challenge_id answer);
      status ← lift (get_default result "status" (PInt 0));
      if in_ints status server_statuses then mret server_error
      else
        hash ← lift (Py.get result "hash");
        earned ← lift (Py.get result "cw_earned");
        if truthy hash || truthy earned
        then
          mark_free token_id;;
          update_stats i (λ s, set_challenges_passed (challenges_passed s + 1) s);;
          update_stats i (λ s, set_total_mines (total_mines s + 1) s);;
          refresh_balance i result;;
          lift (merged (challenge_passed token_id) result)
        else
          error ← lift (Py.get result "error");
          if eq_str error "CHALLENGE_FAILED"
          then
            update_stats i (λ s, set_challenges_failed (challenges_failed s + 1) s);;
            new_ch ← lift (Py.get result "challenge");
            retry ← lift (well_formed new_ch);
            if (retry : bool)
            then
              match decide (depth < 3) with
              | left _ =>
                  handle_challenge i token_id
                    (PDict (<["challenge" := new_ch]> ∅)) (depth + 1)
              | right _ => mret (failure "challenge_failed")
              end
            else mret (failure "challenge_failed")
          else if eq_str error "CHALLENGE_USED"
          then mret (failure "challenge_used")
          else mret result.
Proof. lia. Qed.

Definition mine (i : nat) : M pyval :=
  token ← get_next_token_id i;
  match token with
  | None => mret (failure "all_tokens_taken")
  | Some token_id =>
      if token_id =? 0 then mret (failure "all_tokens_taken")
      else
        self ← gets (λ w, farmers w i);
        result ← Http.post (client self) API_INSCRIBE (inscribe_payload token_id);
        status ← lift (get_default result "status" (PInt 0));
        if in_ints status server_statuses then mret server_error
        else
          id_status ← lift (Py.get result "id_status");
          if eq_str id_status "taken"
          then
            mark_taken token_id;;
            update_stats i (λ s, set_tokens_taken (tokens_taken s + 1) s);;
            mret (token_taken token_id)
          else
            error ← lift (Py.get result "error");
            if eq_str error "CHALLENGE_REQUIRED"
            then handle_challenge i token_id result 0
            else
              hash ← lift (Py.get result "hash");
              earned ← lift (Py.get result "cw_earned");
              if truthy hash || truthy earned
              then
                mark_free token_id;;
                update_stats i (λ s, set_total_mines (total_mines s + 1) s);;
                refresh_balance i result;;
                lift (merged (mined token_id) result)
              else if eq_str error "RATE_LIMITED"
              then
                retry_after ← lift (get_default result "retry_after" (PInt 60));
                mret (rate_limited retry_after)
              else mret result
  end.

Definition set_cw_staked (v : pyval) (s : AccountStats) : AccountStats :=
  mkStats (stats_id s) (trust_score s) (cw_balance s) v (total_mines s)
          (moments_posted s) (challenges_passed s) (challenges_failed s)
          (tokens_taken s) (status s) (last_moment s) (next_moment s)
          (start_time s).

Definition set_moments_posted (n : Z) (s : AccountStats) : AccountStats :=
  mkStats (stats_id s) (trust_score s) (cw_balance s) (cw_staked s)
          (total_mines s) n (challenges_passed s) (challenges_failed s)
          (tokens_taken s) (status s) (last_moment s) (next_moment s)
          (start_time s).

Definition set_last_moment (t : option Z) (s : AccountStats) : AccountStats :=
  mkStats (stats_id s) (trust_score s) (cw_balance s) (cw_staked s)
          (total_mines s) (moments_posted s) (challenges_passed s)
          (challenges_failed s) (tokens_taken s) (status s) t (next_moment s)
          (start_time s).

Definition set_next_moment (t : option Z) (s : AccountStats) : AccountStats :=
  mkStats (stats_id s) (trust_score s) (cw_balance s) (cw_staked s)
          (total_mines s) (moments_posted s) (challenges_passed s)
          (challenges_failed s) (tokens_taken s) (status s) (last_moment s) t
          (start_time s).

Definition balance_payload : pyval :=
  PDict (<["action" := PStr "balance"]> ∅).

(** [get_balance] *)
Definition get_balance (i : nat) : M pyval :=
  self ← gets (λ w, farmers w i);
  result ← Http.post (client self) API_BALANCE balance_payload;
  success ← lift (Py.get result "success");
  if truthy success
  then
    data ← lift (get_default result "data" (PDict ∅));
    trust ← lift (get_default data "trust_score" (PInt 0));
    update_stats i (set_trust_score trust);;
    balance ← lift (get_default data "cw_balance" (PInt 0));
    update_stats i (set_cw_balance balance);;
    staked ← lift (get_default data "cw_staked" (PInt 0));
    update_stats i (set_cw_staked staked);;
    mret result
  else mret result.

(** [post_moment]; [iso] stands for [isoformat].  The cached
    [last_moment] and [next_moment] are kept as the clock readings whose
    ISO texts the Python fields hold.  The progress line reads
    [result['trust_earned']] before the state is saved. *)
Definition post_moment (iso : Z → string) (i : nat) : M pyval :=
  '(can, reason) ← Moments.can_post i;
  if negb can then mret (Moments.failure reason)
  else
    result ← Moments.post i;
    success ← lift (Py.get result "success");
    (if truthy success
     then
       posted_now ← gets (λ w, posted (moments (farmers w i)));
       update_stats i (set_moments_posted posted_now);;
       now ← datetime_now;
       update_stats i (set_last_moment (Some now));;
       _ ← lift (LLMClient.item result "trust_earned");
       self ← gets (λ w, farmers w i);
       modify (λ w, set_shared
                      (SharedState.save_moment_state iso (id self)
                         (posted (moments self)) (last_post (moments self))
                         (shared w)) w)
     else mret tt);;
    next_time ← Moments.get_next_post_time i;
    update_stats i (set_next_moment next_time);;
    mret result.

(** [AccountFarmer.__init__]: the statistics take their [start_time] from
    the clock; the style is chosen by the number that ends the account id.
    The index [idx % len(STYLES)] is never out of range. *)
Definition __init__ (account_id api_key : string) (proxy : option string)
    : M AccountFarmer :=
  now ← datetime_now;
  let stats :=
    mkStats account_id (PInt 0) (PInt 0) (PInt 0) 0 0 0 0 0 "idle" None None
            now in
  n ← lift (Str.int (List.last (Str.split_on "_" account_id) ""));
  let idx := n - 1 in
  style ← lift
    (match LLMClient.STYLES
             !! Z.to_nat (idx `mod` Z.of_nat (length LLMClient.STYLES)) with
     | Some style => Ok style
     | None => Raise (PyErr "IndexError" "list index out of range")
     end);
  mret (mkFarmer account_id (mkClient api_key proxy) (mkMoments 0 None)
                 stats false style).

End Farmer.

(** ** Configuration and controller *)

(** The loop of [load_api_keys] and of [load_proxies] over the lines of the
    file: [None] stands for a path that does not exist. *)
Definition load_lines (file : option (list string)) : list string :=
  match file with
  | None => []
  | Some lines =>
      filter (λ key, negb (String.eqb key "") && negb (Str.is_comment key) = true)
             (Str.strip <$> lines)
  end.

Definition load_api_keys (file : option (list string)) : list string :=
  load_lines file.

Definition load_proxies (file : option (list string)) : list string :=
  load_lines file.

Module FarmerController.

(** [f"acc_{i+1:02d}"] *)
Definition account_id (i : nat) : string :=
  "acc_" +:+ Moments.pad2 (Z.of_nat i + 1).

(** The loop of [setup] that creates the workers, from the index [i] of
    [enumerate] on: [proxies[i] if i < len(proxies) else None] is the
    lookup [proxies !! i]. *)
Fixpoint create (i : nat) (api_keys proxies : list string)
    : M (list AccountFarmer) :=
  match api_keys with
  | [] => mret []
  | api_key :: rest =>
      farmer ← Farmer.__init__ (account_id i) api_key (proxies !! i);
      farmers ← create (S i) rest proxies;
      mret (farmer :: farmers)
  end.

End FarmerController.

(** ** Status snapshot *)

Module Dashboard.


(** The [summary] entry.  [avg_trust] is a float in Python: the double
    nearest to the rational number given here. *)
Module Summary.
Record t : Type := mk {
  total_accounts : Z;
  completed : Z;
  total_cw : Z;
  total_staked : Z;
  total_mines : Z;
  avg_trust : Q;
  total_moments : Z;
  total_challenges_passed : Z;
  total_challenges_failed : Z;
  running : Z
}.
End Summary.







End Dashboard.

(** ** Predicates used in the statements *)


(** Only the clock has been read between [w] and [w']. *)
Definition clock_only (w w' : World) : Prop :=
  env w' = env w ∧ shared w' = shared w ∧ farmers w' = farmers w
  ∧ request_count w' = request_count w ∧ net_calls w' = net_calls w
  ∧ llm_calls w' = llm_calls w ∧ rng_calls w' = rng_calls w.

(** Every run of [m] relates the world before to the world after, also
    when it raises. *)
Definition respects {A} (R : World → World → Prop) (m : M A) : Prop :=
  ∀ w, R w (m w).2.

(** Only the language-model service, the random generator and the request
    counter have been used between [w] and [w']. *)
Definition llm_only (w w' : World) : Prop :=
  env w' = env w ∧ shared w' = shared w ∧ farmers w' = farmers w
  ∧ net_calls w' = net_calls w ∧ clock_reads w' = clock_reads w.

(** At most [n] requests have been sent to the server between [w] and
    [w']. *)
Definition within (n : nat) (w w' : World) : Prop :=
  env w' = env w ∧ (net_calls w ≤ net_calls w' ≤ net_calls w + n)%nat.

(** A reply or a response that embeds a well-formed challenge: an
    identifier and a prompt text. *)
Definition has_challenge (v : pyval) : Prop :=
  ∃ d ch cid prompt,
    v = PDict d
    ∧ d !! "challenge" = Some (PDict ch)
    ∧ ch !! "id" = Some cid ∧ truthy cid = true
    ∧ ch !! "prompt" = Some (PStr prompt) ∧ prompt ≠ "".

(** A [CHALLENGE_FAILED] reply that embeds a fresh well-formed challenge
    (and is no server error and carries no hash and no earned amount). *)
Definition fresh_failure (v : pyval) : Prop :=
  has_challenge v
  ∧ match v with
    | PDict d =>
        in_ints (default (PInt 0) (d !! "status")) Farmer.server_statuses = false
        ∧ truthy (default PNone (d !! "hash")) = false
        ∧ truthy (default PNone (d !! "cw_earned")) = false
        ∧ d !! "error" = Some (PStr "CHALLENGE_FAILED")
    | _ => False
    end.

(** From its [from]-th reply on, the server answers every request with
    such a failure. *)
Definition failing_server (e : Env) (from : nat) : Prop :=
  ∀ k self req timeout,
    (from ≤ k)%nat → fresh_failure (Http.reply e k self req timeout).

(** What a call made by the worker [i] may change: nothing of another
    worker, nothing of its own scheduler, client and identity, no moment
    state of the registry; the taken set may only grow; the clock is not
    read. *)
Definition worker_frame (i : nat) (w w' : World) : Prop :=
  env w' = env w
  ∧ (∀ j, j ≠ i → farmers w' j = farmers w j)
  ∧ moments (farmers w' i) = moments (farmers w i)
  ∧ client (farmers w' i) = client (farmers w i)
  ∧ id (farmers w' i) = id (farmers w i)
  ∧ running (farmers w' i) = running (farmers w i)
  ∧ SharedState.tried_tokens (shared w) ⊆ SharedState.tried_tokens (shared w')
  ∧ SharedState.moment_states (shared w') = SharedState.moment_states (shared w)
  ∧ clock_reads w' = clock_reads w.

(** What a call of the scheduler of the worker [i] may change: nothing
    of another worker, nothing of the registry, nothing of its own cached
    statistics, client and identity; the request and clock counters only
    grow. *)
Definition moments_frame (i : nat) (w w' : World) : Prop :=
  env w' = env w
  ∧ shared w' = shared w
  ∧ (∀ j, j ≠ i → farmers w' j = farmers w j)
  ∧ stats (farmers w' i) = stats (farmers w i)
  ∧ client (farmers w' i) = client (farmers w i)
  ∧ id (farmers w' i) = id (farmers w i)
  ∧ (net_calls w ≤ net_calls w')%nat
  ∧ (clock_reads w ≤ clock_reads w')%nat.

(** [result.get("success")] is truthy, for the outcome of a call; false
    when the call raised or the result is not a dict. *)
Definition success_of (r : res pyval) : bool :=
  match r with
  | Ok v => match Py.get v "success" with
            | Ok flag => truthy flag
            | Raise _ => false
            end
  | Raise _ => false
  end.



(** ** Concrete worlds for the examples *)

Module Sample.

Definition refused : res Response :=
  Raise (PyErr "URLError" "connection refused").

(** A world without a network: every request fails in transport. *)
Definition offline : Env :=
  mkEnv (λ _, Raise (PyErr "JSONDecodeError" "Expecting value"))
        (λ _ _ _ _, refused) (λ _ _ _, refused)
        (λ _, 0%nat) (λ _, false) (λ _, 0).

(** A server that answers every request with the JSON document [v]. *)
Definition answering (v : pyval) : Env :=
  mkEnv (λ _, Ok v)
        (λ _ _ _ _, Ok (mkResponse (Ok "body"))) (λ _ _ _, refused)
        (λ _, 0%nat) (λ _, false) (λ _, 0).

Definition fresh_stats (name : string) : AccountStats :=
  mkStats name (PInt 0) (PInt 0) (PInt 0) 0 0 0 0 0 "idle" None None 0.

Definition fresh_farmer (name : string) : AccountFarmer :=
  mkFarmer name (mkClient "key" None) (mkMoments 0 None)
           (fresh_stats name) false "poetic and lyrical".

Definition world (e : Env) (s : SharedState.t) : World :=
  mkWorld e s (λ _, fresh_farmer "account_1") 0 0 0 0 0.



(** A registry in which 77 is the only ID left to draw. *)
Definition only_77 : SharedState.t :=
  SharedState.mk (SharedState.valid_ids ∖ {[77]}) [] ∅.

(** The reply of scenario B of the specification. *)
Definition reply_B : gmap string pyval :=
  <["cw_earned" := PInt 15]>
    (<["cw_balance" := PInt 1000]> (<["trust_score" := PInt 12]> ∅)).

(** A reply that carries an earned amount of zero. *)
Definition reply_zero : gmap string pyval :=
  <["cw_earned" := PInt 0]>
    (<["cw_balance" := PInt 1000]> (<["trust_score" := PInt 12]> ∅)).

(** A challenge, and the failure reply that embeds it. *)
Definition challenge : pyval :=
  PDict (<["id" := PStr "ch-1"]> (<["prompt" := PStr "Write exactly 3 words"]> ∅)).

Definition challenge_failed : pyval :=
  PDict (<["error" := PStr "CHALLENGE_FAILED"]> (<["challenge" := challenge]> ∅)).

Definition challenge_required : pyval :=
  PDict (<["error" := PStr "CHALLENGE_REQUIRED"]> (<["challenge" := challenge]> ∅)).

(** A registry that a state file with a repeated free ID loads. *)
Definition repeated_free : SharedState.t := SharedState.mk ∅ [5; 5] ∅.

(** The position of 40 in the candidate list of the empty registry. *)
Definition index_40 : nat :=
  default 0%nat
    (fst <$> list_find (λ z, z = 40) (SharedState.available SharedState.init)).

(** A server that answers every request with [v], and a generator whose
    every draw is [k]. *)
Definition answering_draw (v : pyval) (k : nat) : Env :=
  mkEnv (λ _, Ok v)
        (λ _ _ _ _, Ok (mkResponse (Ok "body"))) (λ _ _ _, refused)
        (λ _, k) (λ _, false) (λ _, 0).

(** The reply of scenario A of the specification. *)
Definition reply_taken : gmap string pyval :=
  <["id_status" := PStr "taken"]> (<["taken_by" := PStr "acc_07"]> ∅).

Definition reply_rate_limited : gmap string pyval :=
  <["error" := PStr "RATE_LIMITED"]> (<["retry_after" := PInt 120]> ∅).

(** A server that answers every request with the status 503 and an HTML
    page. *)
Definition unavailable : Env :=
  mkEnv (λ _, Raise (PyErr "JSONDecodeError" "Expecting value"))
        (λ _ _ _ _, Raise (HTTPError 503 "HTTP Error 503: Service Unavailable"
                             (Some "<html>busy</html>")))
        (λ _ _ _, refused)
        (λ _, 0%nat) (λ _, false) (λ _, 0).

(** A server that confirms every request. *)
Definition reply_ok : gmap string pyval := <["success" := PBool true]> ∅.

End Sample.

(** * Theorems *)

(** ** Shared token registry *)

Section registry.
Import SharedState.

Lemma elem_of_list_remove x y l :
  y ∈ list_remove x l → y ∈ l.
Proof.
  induction l as [|z l IH]; simpl; [done|].
  case_bool_decide.
  - apply list_elem_of_further.
  - intros [->|?]%elem_of_cons; [left | right; auto].
Qed.

Lemma NoDup_list_remove x l : NoDup l → NoDup (list_remove x l).
Proof.
  induction 1 as [|z l Hz Hl IH]; simpl; [constructor|].
  case_bool_decide; [done|].
  constructor; [|done]. intros ?%elem_of_list_remove. done.
Qed.

Lemma not_elem_of_list_remove x l : NoDup l → x ∉ list_remove x l.
Proof.
  induction 1 as [|z l Hz Hl IH]; simpl; [apply not_elem_of_nil|].
  case_bool_decide; [by subst|].
  intros [?|?]%elem_of_cons; [congruence | done].
Qed.

Lemma inv_init : inv init.
Proof. split; [intros i; set_solver | constructor]. Qed.

Lemma mark_taken_inv i s : inv s → inv (mark_taken i s).
Proof.
  intros [Hd Hn]. unfold mark_taken.
  case_bool_decide; split; simpl; try done.
  - intros j [Hj| ->%elem_of_singleton]%elem_of_union.
    + intros ?%elem_of_list_remove. by eapply Hd.
    + by apply not_elem_of_list_remove.
  - by apply NoDup_list_remove.
  - intros j [Hj| ->%elem_of_singleton]%elem_of_union; [by apply Hd|done].
Qed.

Lemma mark_free_inv i s : inv s → inv (mark_free i s).
Proof.
  intros [Hd Hn]. unfold mark_free.
  destruct (bool_decide (i ∉ tried_tokens s)) eqn:E1; simpl; [|done].
  destruct (bool_decide (i ∉ free_tokens s)) eqn:E2; simpl; [|done].
  apply bool_decide_eq_true in E1, E2.
  split; simpl.
  - intros j Hj [->|?]%elem_of_cons; [done|]. by eapply Hd.
  - by constructor.
Qed.

Lemma step_inv s c : inv s → inv (step s c).
Proof. destruct c; [apply mark_taken_inv | apply mark_free_inv]. Qed.

Lemma run_inv cs : ∀ s, inv s → inv (run s cs).
Proof.
  induction cs as [|c cs IH]; intros s Hs; [done|].
  apply IH, step_inv, Hs.
Qed.

Lemma step_tried_mono s c : tried_tokens s ⊆ tried_tokens (step s c).
Proof.
  destruct c as [i|i]; simpl.
  - unfold mark_taken. case_bool_decide; simpl; set_solver.
  - unfold mark_free.
    destruct (_ && _); simpl; set_solver.
Qed.

Lemma run_tried_mono cs : ∀ s, tried_tokens s ⊆ tried_tokens (run s cs).
Proof.
  induction cs as [|c cs IH]; intros s; [done|].
  etrans; [apply step_tried_mono | apply IH].
Qed.

Lemma mark_taken_tried i s : i ∈ tried_tokens (mark_taken i s).
Proof. unfold mark_taken. case_bool_decide; simpl; set_solver. Qed.

Lemma run_app s cs1 cs2 : run s (cs1 ++ cs2) = run (run s cs1) cs2.
Proof. apply foldl_app. Qed.

End registry.

(** C1, as the code has it.  From a registry whose taken set and free
    list are disjoint and whose free list repeats no ID (the empty registry
    is one), every sequence of [mark_taken] / [mark_free] calls leads to a
    registry with the same two properties; no ID leaves the taken set; and
    an ID passed to [mark_taken] anywhere in the sequence is in the taken
    set at the end of the sequence, however long it goes on. *)
Theorem registry_disjoint_monotone (s : SharedState.t) (cs : list SharedState.call) :
  SharedState.disjoint s →
  NoDup (SharedState.free_tokens s) →
  SharedState.disjoint (SharedState.run s cs)
  ∧ NoDup (SharedState.free_tokens (SharedState.run s cs))
  ∧ SharedState.tried_tokens s ⊆ SharedState.tried_tokens (SharedState.run s cs)
  ∧ ∀ before i after,
      cs = before ++ SharedState.MarkTaken i :: after →
      i ∈ SharedState.tried_tokens (SharedState.run s cs).
Proof.
  intros Hd Hn.
  destruct (run_inv cs s (conj Hd Hn)) as [Hd' Hn'].
  repeat split; [done|done|apply run_tried_mono|].
  intros before i after ->.
  rewrite run_app. simpl.
  apply (run_tried_mono after), mark_taken_tried.
Qed.

Lemma registry_disjoint_monotone_witness :
  let cs := [SharedState.MarkFree 40; SharedState.MarkTaken 40;
             SharedState.MarkFree 40; SharedState.MarkFree 77] in
  SharedState.disjoint (SharedState.run SharedState.init cs)
  ∧ NoDup (SharedState.free_tokens (SharedState.run SharedState.init cs))
  ∧ SharedState.tried_tokens SharedState.init
      ⊆ SharedState.tried_tokens (SharedState.run SharedState.init cs)
  ∧ ∀ before i after,
      cs = before ++ SharedState.MarkTaken i :: after →
      i ∈ SharedState.tried_tokens (SharedState.run SharedState.init cs).
Proof.
  apply registry_disjoint_monotone.
  - intros i Hi. set_solver.
  - constructor.
Defined.

(** C1, as the specification states it, fails: disjointness alone is not
    kept.  With the free list [5; 5] and nothing taken, [mark_taken 5]
    removes the first 5 only, and 5 is then both taken and free. *)
Lemma registry_disjoint_counterexample :
  SharedState.disjoint Sample.repeated_free
  ∧ ¬ SharedState.disjoint
        (SharedState.run Sample.repeated_free [SharedState.MarkTaken 5]).
Proof.
  split.
  - intros i Hi. set_solver.
  - intros H. apply (H 5).
    + apply mark_taken_tried.
    + assert (SharedState.free_tokens
                (SharedState.run Sample.repeated_free [SharedState.MarkTaken 5])
              = [5]) as -> by reflexivity.
      apply list_elem_of_here.
Qed.

Section candidate.
Import SharedState.

Lemma elem_of_valid_ids t :
  t ∈ valid_ids ↔ TOKEN_ID_MIN ≤ t ≤ TOKEN_ID_MAX.
Proof.
  unfold valid_ids. rewrite elem_of_list_to_set, elem_of_seqZ. lia.
Qed.

Lemma elem_of_available s t :
  t ∈ available s ↔ TOKEN_ID_MIN ≤ t ≤ TOKEN_ID_MAX ∧ t ∉ tried_tokens s.
Proof.
  unfold available.
  rewrite elem_of_elements, elem_of_difference, elem_of_valid_ids. done.
Qed.

Lemma pick_elem_of {A} (x : A) (l : list A) (r : nat) :
  default x (Random.pick (x :: l) r) ∈ x :: l.
Proof.
  unfold Random.pick.
  destruct (lookup_lt_is_Some_2 (x :: l) (r `mod` length (x :: l))%nat)
    as [y Hy].
  - apply Nat.mod_upper_bound. done.
  - rewrite Hy. simpl. by eapply list_elem_of_lookup_2.
Qed.

(** What a call of [get_next_token] returns and where it leaves the
    world: the free list decides, then the draw. *)
Lemma get_next_token_eq w :
  get_next_token w =
    match free_tokens (shared w) with
    | front :: _ => (Ok (Some front), w)
    | [] =>
        match available (shared w) with
        | [] => (Ok None, w)
        | x :: l =>
            (Ok (Some (default x (Random.pick (x :: l)
                                    (rand_index (env w) (rng_calls w))))),
             rng_advance w)
        end
    end.
Proof.
  unfold get_next_token, mbind, M_bind, bind, gets, mret, M_ret, ret.
  destruct (free_tokens (shared w)); [|done].
  destruct (available (shared w)); done.
Qed.

End candidate.

(** C2.  In a registry whose taken set and free list are disjoint,
    [get_next_token] returns without raising, and never an ID of the taken
    set; with a non-empty free list it returns the front of the list, which
    is the ID that the last effective [mark_free] added; with an empty free
    list it returns none when the taken set covers 25..1024, and otherwise
    an ID of 25..1024 outside the taken set. *)
Theorem get_next_token_contract (w : World) :
  SharedState.disjoint (shared w) →
  ∃ r w', get_next_token w = (Ok r, w')
    ∧ (∀ t, r = Some t → t ∉ SharedState.tried_tokens (shared w))
    ∧ (∀ front rest,
         SharedState.free_tokens (shared w) = front :: rest → r = Some front)
    ∧ (∀ t s0,
         shared w = SharedState.mark_free t s0 →
         t ∉ SharedState.tried_tokens s0 →
         t ∉ SharedState.free_tokens s0 →
         r = Some t)
    ∧ (SharedState.free_tokens (shared w) = [] →
       (∀ t, TOKEN_ID_MIN ≤ t ≤ TOKEN_ID_MAX →
             t ∈ SharedState.tried_tokens (shared w)) →
       r = None)
    ∧ (SharedState.free_tokens (shared w) = [] →
       (∃ t, TOKEN_ID_MIN ≤ t ≤ TOKEN_ID_MAX
             ∧ t ∉ SharedState.tried_tokens (shared w)) →
       ∃ t, r = Some t ∧ TOKEN_ID_MIN ≤ t ≤ TOKEN_ID_MAX
            ∧ t ∉ SharedState.tried_tokens (shared w)).
Proof.
  intros Hd. rewrite get_next_token_eq.
  assert (Hfresh : ∀ t s0,
            shared w = SharedState.mark_free t s0 →
            t ∉ SharedState.tried_tokens s0 →
            t ∉ SharedState.free_tokens s0 →
            ∃ rest, SharedState.free_tokens (shared w) = t :: rest).
  { intros t s0 -> H1 H2. unfold SharedState.mark_free.
    rewrite !bool_decide_eq_true_2 by done. simpl. eauto. }
  destruct (SharedState.free_tokens (shared w)) as [|front rest] eqn:Hfree.
  - destruct (SharedState.available (shared w)) as [|x l] eqn:Hav.
    + eexists _, _. split; [done|].
      repeat split; try done.
      * intros t s0 H1 H2 H3. by destruct (Hfresh t s0) as [? ?].
      * intros _ [t [Hr Ht]].
        assert (t ∈ SharedState.available (shared w))
          by by apply elem_of_available.
        rewrite Hav in *. by apply not_elem_of_nil in H.
    + pose proof (pick_elem_of x l (rand_index (env w) (rng_calls w))) as Hin.
      rewrite <- Hav in Hin at 2. apply elem_of_available in Hin as [Hr Ht].
      eexists _, _. split; [done|].
      repeat split; try done.
      * by intros t [= <-].
      * intros t s0 H1 H2 H3. by destruct (Hfresh t s0) as [? ?].
      * intros _ Hall. exfalso. apply Ht, Hall, Hr.
      * intros _ _. eauto.
  - eexists _, _. split; [done|].
    repeat split; try done.
    + intros t [= <-] Ht. apply (Hd _ Ht). rewrite Hfree. apply list_elem_of_here.
    + by intros ?? [= -> ->].
    + intros t s0 H1 H2 H3. destruct (Hfresh t s0) as [? ?]; [done..|].
      congruence.
Qed.

Lemma get_next_token_contract_witness :
  ∃ r w', get_next_token
            (Sample.world Sample.offline
               (SharedState.run SharedState.init
                  [SharedState.MarkTaken 40; SharedState.MarkFree 77;
                   SharedState.MarkFree 78])) = (Ok r, w')
          ∧ r = Some 78.
Proof.
  destruct (get_next_token_contract
              (Sample.world Sample.offline
                 (SharedState.run SharedState.init
                    [SharedState.MarkTaken 40; SharedState.MarkFree 77;
                     SharedState.MarkFree 78])))
    as (r & w' & Heq & _ & Hfront & _).
  - apply (run_inv _ _ inv_init).
  - exists r, w'. split; [exact Heq|]. exact (Hfront 78 [77] eq_refl).
Defined.


(** C10.  [get_next_token] leaves the registry as it found it: the ID it
    returns stays in the free list and is not added to the taken set.  So
    when the worker [i] draws and then the worker [j] draws, with no
    [mark_taken] or [mark_free] in between, both read the same registry;
    with a non-empty free list both get its front ID, and with an empty
    free list both get the same ID whenever the generator repeats its
    draw. *)
Theorem get_next_token_read_only (i j : nat) (w : World) :
  ∃ r1 w1 r2 w2,
    Farmer.get_next_token_id i w = (Ok r1, w1)
    ∧ Farmer.get_next_token_id j w1 = (Ok r2, w2)
    ∧ shared w1 = shared w
    ∧ shared w2 = shared w
    ∧ (SharedState.free_tokens (shared w) ≠ [] →
       r1 = head (SharedState.free_tokens (shared w)) ∧ r2 = r1)
    ∧ (rand_index (env w) (rng_calls w) = rand_index (env w) (S (rng_calls w)) →
       r2 = r1).
Proof.
  unfold Farmer.get_next_token_id.
  rewrite (get_next_token_eq w).
  destruct (SharedState.free_tokens (shared w)) as [|front rest] eqn:Hfree.
  - destruct (SharedState.available (shared w)) as [|x l] eqn:Hav.
    + eexists _, _, _, _. split; [done|].
      rewrite get_next_token_eq, Hfree, Hav. done.
    + eexists _, _, _, _. split; [done|].
      rewrite get_next_token_eq. simpl. rewrite Hfree, Hav.
      repeat split; try done. by intros ->.
  - eexists _, _, _, _. split; [done|].
    rewrite get_next_token_eq, Hfree. done.
Qed.

Lemma get_next_token_read_only_witness :
  ∃ r1 w1 r2 w2,
    Farmer.get_next_token_id 0
      (Sample.world Sample.offline (SharedState.mk ∅ [77; 40] ∅)) = (Ok r1, w1)
    ∧ Farmer.get_next_token_id 1 w1 = (Ok r2, w2)
    ∧ r1 = Some 77 ∧ r2 = Some 77
    ∧ SharedState.free_tokens (shared w2) = [77; 40].
Proof.
  destruct (get_next_token_read_only 0 1
              (Sample.world Sample.offline (SharedState.mk ∅ [77; 40] ∅)))
    as (r1 & w1 & r2 & w2 & H1 & H2 & _ & Hs & Hfront & _).
  destruct Hfront as [E1 E2]; [discriminate|].
  exists r1, w1, r2, w2. rewrite Hs.
  repeat split; [exact H1 | exact H2 | exact E1 | by rewrite E2 ].
Defined.


(** ** HTTP client *)

Lemma bind_ok {A B} (m : M A) (k : A → M B) w a w' :
  m w = (Ok a, w') → (m ≫= k) w = k a w'.
Proof. intros H. unfold mbind, M_bind, bind. by rewrite H. Qed.

Lemma bind_raise {A B} (m : M A) (k : A → M B) w e w' :
  m w = (Raise e, w') → (m ≫= k) w = (Raise e, w').
Proof. intros H. unfold mbind, M_bind, bind. by rewrite H. Qed.

Lemma gets_eq {A} (f : World → A) w : gets f w = (Ok (f w), w).
Proof. done. Qed.

Lemma modify_eq f w : modify f w = (Ok tt, f w).
Proof. done. Qed.

Lemma lift_eq {A} (r : res A) w : lift r w = (r, w).
Proof. done. Qed.

Lemma mret_eq {A} (a : A) w : (mret a : M A) w = (Ok a, w).
Proof. done. Qed.

Lemma datetime_now_eq w :
  datetime_now w = (Ok (clock (env w) (clock_reads w)), clock_advance w).
Proof. done. Qed.

(** One step through a [bind] whose first computation is known. *)
Ltac step_with H := erewrite bind_ok; [|apply H]; cbv beta iota.
Ltac step :=
  erewrite bind_ok;
  [|first [apply gets_eq | apply modify_eq | apply lift_eq | apply mret_eq
          | apply datetime_now_eq]];
  cbv beta iota.

Ltac unfold_M :=
  unfold mbind, M_bind, bind, mret, M_ret, ret, gets, modify, lift,
    try_except, raise in *.

Lemma execute_reply self req timeout w :
  Http._execute self req timeout w
  = (Ok (Http.reply (env w) (net_calls w) self req timeout), net_advance w).
Proof.
  assert (Herr : ∀ x,
    match x with
    | HTTPError code msg body =>
        try_except
          (match body with
           | None => raise (PyErr "Exception" "read failed")
           | Some error_body =>
               if String.eqb error_body ""
               then mret (Http.error_status msg code)
               else Http.loads error_body
           end)
          (λ _, mret (Http.error_status msg code))
    | PyErr _ msg => mret (Http.error_only msg)
    end (net_advance w)
    = (Ok match x with
          | HTTPError code msg (Some error_body) =>
              if String.eqb error_body "" then Http.error_status msg code
              else match json_loads (env w) error_body with
                   | Ok v => v
                   | Raise _ => Http.error_status msg code
                   end
          | HTTPError code msg None => Http.error_status msg code
          | PyErr _ msg => Http.error_only msg
          end, net_advance w)).
  { intros [code msg [body|]|cls msg]; unfold Http.loads; unfold_M; simpl;
      [|done..].
    destruct (String.eqb body ""); [done|].
    change (env (net_advance w)) with (env w).
    by destruct (json_loads (env w) body). }
  unfold Http._execute, Http.reply, Http.opener_open_call, Http.loads.
  unfold try_except at 1. unfold mbind, M_bind, bind, lift.
  destruct (opener_open _ _ _ _ _) as [[[text|x]]|x]; simpl.
  - change (env (net_advance w)) with (env w).
    destruct (json_loads (env w) text) as [v|x]; [done|]. apply Herr.
  - apply Herr.
  - apply Herr.
Qed.

Lemma post_reply self url data w :
  Http.post self url data w
  = (Ok (Http.reply (env w) (net_calls w) self
           (Http.post_request self url data) 30),
     net_advance w).
Proof. unfold Http.post, Http.request. apply execute_reply. Qed.

(** C8.  [_execute] never raises and uses the network exactly once, so it
    does not retry.  When [opener.open] fails in transport it returns
    [{"error": str(e)}]; on an HTTP error status it returns the parsed
    error body when that body is valid JSON, and
    [{"error": str(e), "status": e.code}] when the body is empty, cannot be
    read or is not JSON; on success it returns the parsed body as it is
    (and [{"error": str(e)}] when the body of a successful reply cannot be
    read or parsed). *)
Theorem execute_total_and_normalized
    (self : HttpClient) (req : Request) (timeout : Z) (w : World) :
  ∃ v w',
    Http._execute self req timeout w = (Ok v, w')
    ∧ net_calls w' = S (net_calls w)
    ∧ shared w' = shared w
    ∧ farmers w' = farmers w
    ∧ match opener_open (env w) (net_calls w) (Http._build_opener self) req timeout with
      | Raise (PyErr _ msg) => v = Http.error_only msg
      | Raise (HTTPError code msg None) => v = Http.error_status msg code
      | Raise (HTTPError code msg (Some error_body)) =>
          if String.eqb error_body "" then v = Http.error_status msg code
          else
            match json_loads (env w) error_body with
            | Ok parsed => v = parsed
            | Raise _ => v = Http.error_status msg code
            end
      | Ok response =>
          match read_decode response with
          | Ok text =>
              match json_loads (env w) text with
              | Ok parsed => v = parsed
              | Raise (PyErr _ msg) => v = Http.error_only msg
              | Raise (HTTPError _ _ _) => True
              end
          | Raise (PyErr _ msg) => v = Http.error_only msg
          | Raise (HTTPError _ _ _) => True
          end
      end.
Proof.
  eexists _, _. split; [apply execute_reply|].
  repeat split. unfold Http.reply.
  destruct (opener_open _ _ _ _ _) as [[[text|x]]|x]; simpl.
  - destruct (json_loads (env w) text) as [v|[]]; done.
  - by destruct x.
  - destruct x as [code msg [body|]|cls msg]; [|done..].
    destruct (String.eqb body ""); [done|].
    by destruct (json_loads (env w) body).
Qed.


(** ** Moment scheduler *)

Lemma can_post_eq i w :
  Moments.can_post i w =
    let m := moments (farmers w i) in
    if posted m >=? MAX_MOMENTS then (Ok (false, "Max moments reached"), w)
    else
      match last_post m with
      | Some last =>
          let elapsed := clock (env w) (clock_reads w) - last in
          (Ok (if elapsed <? Moments.cooldown
               then (false, "Cooldown: "
                            +:+ Moments.str_timedelta (Moments.cooldown - elapsed))
               else (true, "Ready")),
           clock_advance w)
      | None => (Ok (true, "Ready"), w)
      end.
Proof.
  unfold Moments.can_post, datetime_now. unfold_M. simpl.
  destruct (posted _ >=? MAX_MOMENTS); [done|].
  destruct (last_post _) as [last|]; [|done].
  by destruct (_ <? Moments.cooldown).
Qed.

Lemma post_at_quota i w :
  MAX_MOMENTS ≤ posted (moments (farmers w i)) →
  Moments.post i w = (Ok (Moments.failure "Max moments reached"), w).
Proof.
  intros H. unfold Moments.post. unfold mbind, M_bind, bind.
  rewrite can_post_eq. simpl.
  destruct (posted _ >=? MAX_MOMENTS) eqn:E; [done|]. lia.
Qed.

Lemma run_at_quota i cs : ∀ w,
  MAX_MOMENTS ≤ posted (moments (farmers w i)) →
  Moments.run i w cs = w.
Proof.
  induction cs as [|c cs IH]; intros w H; [done|].
  unfold Moments.run in *. simpl.
  assert (Moments.step i w c = w) as ->; [|by apply IH].
  destruct c; simpl.
  - rewrite can_post_eq. simpl.
    destruct (posted _ >=? MAX_MOMENTS) eqn:E; [done|]. lia.
  - by rewrite post_at_quota.
Qed.

(** C7.  [can_post] returns without raising and without touching any
    worker.  At or above [MAX_MOMENTS] = 5 posts it is false whatever the
    clock says, and stays false after any further calls of [can_post] and
    [post] on that scheduler.  Under the quota it is false when less than
    the cooldown of 5 hours has passed since the last post, and true
    otherwise, also when there has been no post. *)
Theorem can_post_gating (i : nat) (w : World) :
  let m := moments (farmers w i) in
  let now := clock (env w) (clock_reads w) in
  ∃ can reason w',
    Moments.can_post i w = (Ok (can, reason), w')
    ∧ farmers w' = farmers w
    ∧ MAX_MOMENTS = 5
    ∧ Moments.cooldown = 5 * 60 * 60 * 1000000
    ∧ (MAX_MOMENTS ≤ posted m → can = false)
    ∧ (MAX_MOMENTS ≤ posted m →
       ∀ cs, fst (Moments.can_post i (Moments.run i w cs))
             = Ok (false, "Max moments reached"))
    ∧ (posted m < MAX_MOMENTS →
       ∀ last, last_post m = Some last →
               now - last < Moments.cooldown → can = false)
    ∧ (posted m < MAX_MOMENTS →
       ∀ last, last_post m = Some last →
               Moments.cooldown ≤ now - last → can = true)
    ∧ (posted m < MAX_MOMENTS → last_post m = None → can = true).
Proof.
  intros m now.
  assert (Hforever : MAX_MOMENTS ≤ posted m →
     ∀ cs, fst (Moments.can_post i (Moments.run i w cs))
           = Ok (false, "Max moments reached")).
  { intros H cs. rewrite run_at_quota by done.
    rewrite can_post_eq. simpl. fold m.
    destruct (posted m >=? MAX_MOMENTS) eqn:E; [done|]. lia. }
  rewrite can_post_eq. simpl. fold m now.
  destruct (posted m >=? MAX_MOMENTS) eqn:E.
  - eexists _, _, _. split; [done|].
    repeat split; try done; intros; lia.
  - destruct (last_post m) as [last|] eqn:El.
    + destruct (now - last <? Moments.cooldown) eqn:Ec.
      * eexists _, _, _. split; [done|].
        repeat split; try done; intros;
          repeat match goal with H : Some _ = Some _ |- _ => injection H as <- end;
          lia.
      * eexists _, _, _. split; [done|].
        repeat split; try done; intros;
          repeat match goal with H : Some _ = Some _ |- _ => injection H as <- end;
          lia.
    + eexists _, _, _. split; [done|].
      repeat split; try done; intros; lia.
Qed.

Lemma can_post_gating_witness :
  fst (Moments.can_post 0
         (mkWorld Sample.offline SharedState.init
            (λ _, set_moments (mkMoments 5 (Some 0))
                    (Sample.fresh_farmer "account_1"))
            0 0 0 0 0))
  = Ok (false, "Max moments reached").
Proof.
  destruct (can_post_gating 0
              (mkWorld Sample.offline SharedState.init
                 (λ _, set_moments (mkMoments 5 (Some 0))
                         (Sample.fresh_farmer "account_1"))
                 0 0 0 0 0))
    as (can & reason & w' & _ & _ & _ & _ & _ & Hforever & _).
  apply (Hforever ltac:(simpl; unfold MAX_MOMENTS; lia) []).
Defined.

(** [generate_content] always yields a text and touches only the random
    generator. *)
Lemma generate_content_frame w :
  ∃ content w',
    Moments.generate_content w = (Ok content, w')
    ∧ env w' = env w ∧ shared w' = shared w ∧ farmers w' = farmers w
    ∧ net_calls w' = net_calls w ∧ clock_reads w' = clock_reads w.
Proof.
  unfold Moments.generate_content, MOMENT_TEMPLATES, Moments.emojis,
    Random.random_gt_half, Random.choice.
  unfold_M.
  destruct (rand_half (env (rng_advance w)) (rng_calls (rng_advance w)));
    eexists _, _; (split; [reflexivity|done]).
Qed.

(** C4.  [post] first asks [can_post].  When the answer is no, it returns
    the reason, sends nothing, and leaves the posted count and the
    last-post time as they were.  When the answer is yes, it sends one
    request; if the reply is a dict whose ["success"] entry is truthy, the
    posted count grows by exactly one and the last-post time becomes the
    clock reading taken after the reply; for every other reply (a gateway
    failure such as [{"error": ...}] among them) the scheduler is left
    unchanged. *)
Theorem post_atomic (i : nat) (w : World) :
  let m := moments (farmers w i) in
  ∃ can reason w1,
    Moments.can_post i w = (Ok (can, reason), w1)
    ∧ if can
      then
        ∃ content w2 result w3 r w',
          Moments.generate_content w1 = (Ok content, w2)
          ∧ Http.post (client (farmers w i)) API_SOCIAL
              (Moments.moment_payload content) w2 = (Ok result, w3)
          ∧ net_calls w3 = S (net_calls w)
          ∧ Moments.post i w = (r, w')
          ∧ net_calls w' = S (net_calls w)
          ∧ let m' := moments (farmers w' i) in
            match Py.get result "success" with
            | Ok flag =>
                if truthy flag
                then posted m' = posted m + 1
                     ∧ last_post m' = Some (clock (env w) (clock_reads w3))
                     ∧ r = Ok (Moments.posted_report content (posted m + 1))
                else m' = m ∧ r = Ok result
            | Raise e => m' = m ∧ r = Raise e
            end
      else
        Moments.post i w = (Ok (Moments.failure reason), w1)
        ∧ moments (farmers w1 i) = m
        ∧ net_calls w1 = net_calls w.
Proof.
  intros m.
  assert (Hframe : ∀ can reason w1,
            Moments.can_post i w = (Ok (can, reason), w1) →
            env w1 = env w ∧ shared w1 = shared w ∧ farmers w1 = farmers w
            ∧ net_calls w1 = net_calls w).
  { intros can reason w1. rewrite can_post_eq. simpl.
    destruct (posted _ >=? _); [by intros [= <- <- <-]|].
    destruct (last_post _); [|by intros [= <- <- <-]].
    destruct (_ <? _); by intros [= <- <- <-]. }
  destruct (Moments.can_post i w) as [[[can reason]|e] w1] eqn:Hcan.
  2: { exfalso. revert Hcan. rewrite can_post_eq. simpl.
       destruct (posted _ >=? _); [done|].
       destruct (last_post _); [|done]. by destruct (_ <? _). }
  destruct (Hframe _ _ _ eq_refl) as (He1 & Hs1 & Hf1 & Hn1).
  exists can, reason, w1. split; [done|].
  destruct can.
  - destruct (generate_content_frame w1)
      as (content & w2 & Hgen & He2 & Hs2 & Hf2 & Hn2 & Hc2).
    destruct (Moments.post i w) as [r w'] eqn:Hpost.
    exists content, w2. eexists _, _. exists r, w'.
    split; [exact Hgen|]. split; [apply post_reply|].
    split; [simpl; congruence|].
    split; [reflexivity|].
    revert Hpost. unfold Moments.post.
    step_with Hcan. cbn [negb].
    step_with Hgen. step. step_with post_reply.
    rewrite Hf2, Hf1.
    set (result := Http.reply _ _ _ _ _).
    destruct (Py.get result "success") as [flag|e] eqn:Hflag.
    + step.
      destruct (truthy flag) eqn:Ht.
      * intros [= <- <-]. simpl.
        rewrite !decide_True by done. simpl.
        rewrite Hf2, Hf1, He2, He1. fold m.
        repeat split; congruence.
      * intros [= <- <-]. simpl. rewrite Hf2, Hf1.
        repeat split. congruence.
    + erewrite bind_raise; [|apply lift_eq].
      intros [= <- <-]. simpl. rewrite Hf2, Hf1.
      repeat split. congruence.
  - unfold Moments.post. unfold mbind, M_bind, bind.
    rewrite Hcan. simpl. repeat split; [by rewrite Hf1 | done].
Qed.


(** A gateway failure: without a network, [post] returns the error of the
    transport and the scheduler keeps its count of 0 and its empty
    last-post time. *)
Example post_offline :
  ∃ w',
    Moments.post 0 (Sample.world Sample.offline SharedState.init)
    = (Ok (Http.error_only "connection refused"), w')
    ∧ moments (farmers w' 0%nat) = mkMoments 0 None
    ∧ net_calls w' = 1%nat.
Proof. eexists. split; [vm_compute; reflexivity|]. split; reflexivity. Qed.

(** A confirmed post: the count becomes 1 and the time is stamped. *)
Example post_confirmed :
  ∃ r w',
    Moments.post 0
      (Sample.world (Sample.answering (PDict (<["success" := PBool true]> ∅)))
         SharedState.init) = (Ok r, w')
    ∧ moments (farmers w' 0%nat) = mkMoments 1 (Some 0)
    ∧ net_calls w' = 1%nat.
Proof. eexists _, _. split; [vm_compute; reflexivity|]. split; reflexivity. Qed.


(** ** Challenge solver: the repair of the word count *)

Section words.
Import Str.

Lemma append_cons c w s : String c w +:+ s = String c (w +:+ s).
Proof. done. Qed.

Lemma append_empty w : w +:+ "" = w.
Proof. induction w as [|c w IH]; [done|]. by rewrite append_cons, IH. Qed.

(** A word in front of the end of the text or of a white space is the
    first word of the split. *)
Lemma split_word_app w s :
  is_word w = true →
  match s with "" => True | String c _ => is_space c = true end →
  split (w +:+ s) = w :: split s.
Proof.
  destruct w as [|c w]; [done|]. simpl is_word.
  revert c. induction w as [|c' w IH]; intros c Hw Hs.
  - simpl in Hw. rewrite andb_true_r in Hw. apply negb_true_iff in Hw.
    change (String c "" +:+ s) with (String c s).
    simpl. rewrite Hw. destruct s as [|d s]; [done|]. by rewrite Hs.
  - simpl in Hw. apply andb_true_iff in Hw as [Hc Hw].
    apply negb_true_iff in Hc.
    pose proof Hw as Hw'. apply andb_true_iff in Hw' as [Hc' _].
    apply negb_true_iff in Hc'.
    rewrite append_cons.
    change (split (String c (String c' w +:+ s)))
      with (if is_space c then split (String c' w +:+ s)
            else match String c' w +:+ s with
                 | "" => [String c ""]
                 | String d _ =>
                     if is_space d then String c "" :: split (String c' w +:+ s)
                     else match split (String c' w +:+ s) with
                          | x :: xs => String c x :: xs
                          | [] => [String c ""]
                          end
                 end).
    rewrite Hc, (IH c' Hw Hs), append_cons, Hc'. done.
Qed.

Lemma split_join (ws : list string) :
  Forall (λ w, is_word w = true) ws → split (join " " ws) = ws.
Proof.
  induction 1 as [|w ws Hw Hws IH]; [done|].
  destruct ws as [|w' ws].
  - simpl join. rewrite <- (append_empty w) at 1.
    by rewrite split_word_app.
  - change (join " " (w :: w' :: ws)) with (w +:+ " " +:+ join " " (w' :: ws)).
    rewrite split_word_app; [|done|done].
    rewrite append_cons.
    change (split (String " " ("" +:+ join " " (w' :: ws))))
      with (split (join " " (w' :: ws))).
    by rewrite IH.
Qed.

Lemma split_words (s : string) : Forall (λ w, is_word w = true) (split s).
Proof.
  induction s as [|c s IH]; [constructor|].
  simpl. destruct (is_space c) eqn:Hc; [done|].
  destruct s as [|d s]; [by repeat constructor; simpl; rewrite Hc|].
  destruct (is_space d) eqn:Hd.
  - constructor; [by simpl; rewrite Hc | done].
  - destruct (split (String d s)) as [|x xs];
      [by repeat constructor; simpl; rewrite Hc|].
    inversion IH as [|?? Hx Hxs]; subst. constructor; [|done].
    destruct x; [done|]. simpl in *. by rewrite Hc.
Qed.

Lemma int_of_digits_nonneg ds : 0 ≤ int_of_digits ds.
Proof.
  unfold int_of_digits.
  assert (∀ l acc, 0 ≤ acc →
            0 ≤ fold_left (λ a c, 10 * a + digit_value c) l acc) as H.
  { induction l as [|c l IH]; intros acc Hacc; [done|].
    simpl. apply IH. unfold digit_value. lia. }
  by apply H.
Qed.

End words.

(** What the truncation of [_validate_answer] does for one bound [n]: an
    answer of at most [n] words is returned as it is, a longer one becomes
    its first [n] words. *)
Lemma truncate_words_spec (n : Z) (answer : string) :
  0 ≤ n →
  let words := Str.split answer in
  (Z.of_nat (length words) ≤ n →
   LLMClient.truncate_words n answer = answer)
  ∧ (n < Z.of_nat (length words) →
     Str.split (LLMClient.truncate_words n answer) = take (Z.to_nat n) words
     ∧ Z.of_nat (length (Str.split (LLMClient.truncate_words n answer))) = n).
Proof.
  intros Hn words. unfold LLMClient.truncate_words. fold words.
  destruct (Z.gtb_spec (Z.of_nat (length words)) n) as [E|E];
    split; intros H; try lia.
  - assert (Str.split (Str.join " " (take (Z.to_nat n) words))
            = take (Z.to_nat n) words) as ->.
    { apply split_join, Forall_take, split_words. }
    split; [done|]. rewrite length_take. lia.
  - done.
Qed.




(** The examples of the specification. *)
Example repair_exactly_5_of_8 :
  Str.split (LLMClient._validate_answer "Write exactly 5 words"
               "one two three four five six seven eight")
  = ["one"; "two"; "three"; "four"; "five"].
Proof. reflexivity. Qed.

Example repair_exactly_5_of_3 :
  LLMClient._validate_answer "Write exactly 5 words" "one two three"
  = "one two three".
Proof. reflexivity. Qed.

Example repair_scenario_C :
  LLMClient._validate_answer "Write exactly 3 words" "one two three four"
  = "one two three".
Proof. reflexivity. Qed.


(** ** Status snapshot *)

Section snapshot.
Import Dashboard.






End snapshot.




(** ** Account worker: mining *)

Lemma get_next_token_frame w r w1 :
  get_next_token w = (r, w1) → w1 = w ∨ w1 = rng_advance w.
Proof.
  rewrite get_next_token_eq.
  destruct (SharedState.free_tokens _); [|intros [= <- <-]; by left].
  destruct (SharedState.available _); intros [= <- <-]; [by left|by right].
Qed.

Lemma set_farmer_same i f w : farmers (set_farmer i f w) i = f.
Proof. simpl. by rewrite decide_True. Qed.

(** C5, as the code has it.  When the registry hands out the ID
    [token_id] and the reply to the inscription request is a dict that has
    no 5xx status, no taken status and no [CHALLENGE_REQUIRED] error, and
    whose ["hash"] or ["cw_earned"] entry is truthy (a non-empty hash, a
    non-zero amount), [mine] marks the ID free with [mark_free] (the ID is
    in the free list afterwards), adds exactly one to [total_mines], replaces the cached balance and trust score by the
    reply's [cw_balance] and [trust_score] entries when the reply has them
    and keeps them otherwise, leaves the other counters alone, and returns
    [{"success": True, "token_id": token_id}] overlaid with every entry of
    the reply. *)
Theorem mine_success (i : nat) (w w1 : World) (token_id : Z)
    (d : gmap string pyval) :
  get_next_token w = (Ok (Some token_id), w1) →
  token_id ≠ 0 →
  Http.reply (env w) (net_calls w) (client (farmers w i))
    (Http.post_request (client (farmers w i)) API_INSCRIBE
       (Farmer.inscribe_payload token_id)) 30 = PDict d →
  in_ints (default (PInt 0) (d !! "status")) Farmer.server_statuses = false →
  eq_str (default PNone (d !! "id_status")) "taken" = false →
  eq_str (default PNone (d !! "error")) "CHALLENGE_REQUIRED" = false →
  truthy (default PNone (d !! "hash"))
  || truthy (default PNone (d !! "cw_earned")) = true →
  ∃ w',
    Farmer.mine i w = (Ok (PDict (d ∪ Farmer.mined token_id)), w')
    ∧ shared w' = SharedState.mark_free token_id (shared w)
    ∧ token_id ∈ SharedState.free_tokens (shared w')
    ∧ total_mines (stats (farmers w' i)) = total_mines (stats (farmers w i)) + 1
    ∧ cw_balance (stats (farmers w' i))
      = default (cw_balance (stats (farmers w i))) (d !! "cw_balance")
    ∧ trust_score (stats (farmers w' i))
      = default (trust_score (stats (farmers w i))) (d !! "trust_score")
    ∧ tokens_taken (stats (farmers w' i)) = tokens_taken (stats (farmers w i))
    ∧ challenges_passed (stats (farmers w' i))
      = challenges_passed (stats (farmers w i))
    ∧ challenges_failed (stats (farmers w' i))
      = challenges_failed (stats (farmers w i))
    ∧ net_calls w' = S (net_calls w)
    ∧ (∀ k v, d !! k = Some v → (d ∪ Farmer.mined token_id) !! k = Some v)
    ∧ (d !! "success" = None →
       (d ∪ Farmer.mined token_id) !! "success" = Some (PBool true))
    ∧ (d !! "token_id" = None →
       (d ∪ Farmer.mined token_id) !! "token_id" = Some (PInt token_id)).
Proof.
  intros Htok Hnz Hreply Hstatus Htaken Hchal Hmined.
  assert (Hw1 : env w1 = env w ∧ net_calls w1 = net_calls w
                ∧ farmers w1 = farmers w ∧ shared w1 = shared w).
  { by destruct (get_next_token_frame _ _ _ Htok) as [-> | ->]. }
  destruct Hw1 as (He & Hn & Hf & Hs).
  eexists. split.
  { unfold Farmer.mine, Farmer.get_next_token_id.
    step_with Htok.
    destruct (Z.eqb_spec token_id 0) as [?|_]; [done|].
    step. step_with post_reply. rewrite He, Hn, Hf, Hreply.
    unfold get_default, Py.get.
    step. rewrite Hstatus.
    step. rewrite Htaken.
    step. rewrite Hchal.
    do 2 step. rewrite Hmined.
    unfold mark_free, update_stats, Farmer.refresh_balance, Farmer.merged.
    unfold get_default. unfold_M. reflexivity. }
  simpl. rewrite !decide_True by done. simpl. rewrite Hf, Hs.
  repeat split; try done.
  - revert Htok. rewrite get_next_token_eq. unfold SharedState.mark_free.
    destruct (SharedState.free_tokens (shared w)) as [|front rest] eqn:Hfree.
    + destruct (SharedState.available (shared w)) as [|x l] eqn:Hav; [done|].
      intros [= <- _].
      pose proof (pick_elem_of x l (rand_index (env w) (rng_calls w))) as Hin.
      rewrite <- Hav in Hin at 2. apply elem_of_available in Hin as [_ Hin].
      rewrite !bool_decide_eq_true_2; [|apply not_elem_of_nil|done].
      simpl. apply list_elem_of_here.
    + intros [= -> _].
      rewrite (bool_decide_eq_false_2 (token_id ∉ token_id :: rest)).
      * rewrite andb_false_r. rewrite Hfree. apply list_elem_of_here.
      * intros H. apply H, list_elem_of_here.
  - by rewrite Hn.
  - intros k v Hk. by apply lookup_union_Some_l.
  - intros Hnone. by rewrite lookup_union_r.
  - intros Hnone. by rewrite lookup_union_r.
Qed.

(** Scenario B of the specification: the draw gives 77, the reply is
    [{cw_earned: 15, cw_balance: 1000, trust_score: 12}]. *)
Lemma mine_success_witness :
  ∃ w',
    Farmer.mine 0 (Sample.world (Sample.answering (PDict Sample.reply_B))
                     Sample.only_77)
    = (Ok (PDict (Sample.reply_B ∪ Farmer.mined 77)), w')
    ∧ SharedState.free_tokens (shared w') = [77]
    ∧ total_mines (stats (farmers w' 0%nat)) = 1
    ∧ cw_balance (stats (farmers w' 0%nat)) = PInt 1000
    ∧ trust_score (stats (farmers w' 0%nat)) = PInt 12.
Proof.
  destruct (mine_success 0
              (Sample.world (Sample.answering (PDict Sample.reply_B))
                 Sample.only_77)
              (rng_advance
                 (Sample.world (Sample.answering (PDict Sample.reply_B))
                    Sample.only_77))
              77 Sample.reply_B)
    as (w' & Heq & Hs & _ & Hm & Hb & Ht & _).
  - vm_compute. reflexivity.
  - lia.
  - reflexivity.
  - reflexivity.
  - reflexivity.
  - reflexivity.
  - reflexivity.
  - exists w'. split; [exact Heq|].
    split; [rewrite Hs; vm_compute; reflexivity|].
    split; [exact Hm|]. split; [exact Hb | exact Ht].
Defined.

(** C5, as the specification states it, fails for a reply that contains
    an earned amount of zero and no hash: [mine] takes it for an unknown
    reply, returns it as it is, and neither counts a mine nor refreshes the
    cached balance and trust. *)
Lemma mine_success_counterexample :
  let w := Sample.world (Sample.answering (PDict Sample.reply_zero))
             (SharedState.mk ∅ [77] ∅) in
  Sample.reply_zero !! "cw_earned" = Some (PInt 0)
  ∧ ∃ w',
      Farmer.mine 0 w = (Ok (PDict Sample.reply_zero), w')
      ∧ total_mines (stats (farmers w' 0%nat)) = 0
      ∧ cw_balance (stats (farmers w' 0%nat)) = PInt 0
      ∧ trust_score (stats (farmers w' 0%nat)) = PInt 0.
Proof.
  split; [reflexivity|].
  eexists. split; [vm_compute; reflexivity|].
  repeat split.
Qed.


(** ** Account worker: challenges *)

Section effects.

Lemma respects_bind {A B} (R : World → World → Prop) (m : M A) (k : A → M B) :
  Transitive R → respects R m → (∀ a, respects R (k a)) → respects R (m ≫= k).
Proof.
  intros HR Hm Hk w. specialize (Hm w).
  unfold mbind, M_bind, bind. destruct (m w) as [[a|e] w1]; simpl in *.
  - etrans; [exact Hm | apply Hk].
  - exact Hm.
Qed.

Lemma respects_try {A} (R : World → World → Prop) (m : M A) (h : exn → M A) :
  Transitive R → respects R m → (∀ e, respects R (h e)) →
  respects R (try_except m h).
Proof.
  intros HR Hm Hh w. specialize (Hm w).
  unfold try_except. destruct (m w) as [[a|e] w1]; simpl in *.
  - exact Hm.
  - etrans; [exact Hm | apply Hh].
Qed.

#[local] Instance llm_only_refl : Reflexive llm_only.
Proof. by intros w. Qed.

#[local] Instance llm_only_trans : Transitive llm_only.
Proof.
  intros w1 w2 w3 (?&?&?&?&?) (?&?&?&?&?). repeat split; congruence.
Qed.

Lemma respects_lift {A} (R : World → World → Prop) (r : res A) :
  Reflexive R → respects R (lift r).
Proof. intros HR w. apply HR. Qed.

Lemma respects_mret {A} (R : World → World → Prop) (a : A) :
  Reflexive R → respects R (mret a : M A).
Proof. intros HR w. apply HR. Qed.

Lemma attempt_llm_only prompt style :
  respects llm_only (LLMClient.attempt prompt style).
Proof.
  unfold LLMClient.attempt.
  apply respects_bind; [apply _ | by intros w |intros response].
  repeat (apply respects_bind;
          [apply _ | first [apply respects_lift; apply _ | by intros w] | intros ?]).
  by intros w.
Qed.

Lemma fallback_ok prompt w :
  ∃ a, LLMClient._fallback_answer prompt w = (Ok a, rng_advance w).
Proof. eexists. reflexivity. Qed.

Lemma solve_loop_ok attempts prompt style : ∀ w,
  ∃ a w', LLMClient.solve_loop attempts prompt style w = (Ok a, w')
          ∧ llm_only w w'.
Proof.
  induction attempts as [|n attempts IH]; intros w; simpl.
  - destruct (fallback_ok prompt w) as [a Ha]. by exists a, (rng_advance w).
  - pose proof (attempt_llm_only prompt style w) as Hatt.
    unfold try_except.
    destruct (LLMClient.attempt prompt style w) as [[a|e] w1]; simpl in Hatt.
    + by exists a, w1.
    + destruct (IH w1) as (a & w2 & Heq & Hframe).
      exists a, w2. split; [done|]. by etrans.
Qed.

(** The solver always returns a text for a prompt that is a text, and
    raises before any request for a prompt that is not. *)
Lemma solve_challenge_text prompt style w :
  ∃ a w', LLMClient.solve_challenge (PStr prompt) style w = (Ok a, w')
          ∧ llm_only w w'.
Proof. apply solve_loop_ok. Qed.

Lemma solve_challenge_llm_only prompt style :
  respects llm_only (LLMClient.solve_challenge prompt style).
Proof.
  intros w. destruct prompt; try done.
  destruct (solve_loop_ok (seq 0 2) s style w) as (a & w' & Heq & Hframe).
  unfold LLMClient.solve_challenge. by rewrite Heq.
Qed.

(** *** Counting the requests *)

Lemma within_weaken a b w w' : (a ≤ b)%nat → within a w w' → within b w w'.
Proof. intros Hab (He & Hn). split; [done|lia]. Qed.

Lemma within_bind {A B} a b (m : M A) (k : A → M B) :
  respects (within a) m → (∀ x, respects (within b) (k x)) →
  respects (within (a + b)) (m ≫= k).
Proof.
  intros Hm Hk w. specialize (Hm w).
  unfold mbind, M_bind, bind. destruct (m w) as [[x|e] w1]; simpl in *.
  - specialize (Hk x w1). destruct (k x w1) as [r w2]; simpl in *.
    destruct Hm as (He1 & Hn1), Hk as (He2 & Hn2). split; [congruence|lia].
  - by eapply within_weaken; [|exact Hm]; lia.
Qed.

Lemma within_pure {A} n (m : M A) :
  (∀ w, (m w).2 = w) → respects (within n) m.
Proof. intros H w. rewrite H. split; [done|lia]. Qed.

Lemma within_modify n f :
  (∀ w, env (f w) = env w ∧ net_calls (f w) = net_calls w) →
  respects (within n) (modify f).
Proof.
  intros H w. change ((modify f w).2) with (f w).
  destruct (H w) as [He Hn]. split; [done|lia].
Qed.

Lemma within_post self url data : respects (within 1) (Http.post self url data).
Proof.
  intros w. rewrite post_reply. unfold within, net_advance. simpl.
  split; [done|lia].
Qed.

Lemma within_solve n prompt style :
  respects (within n) (LLMClient.solve_challenge prompt style).
Proof.
  intros w. destruct (solve_challenge_llm_only prompt style w) as (He&_&_&Hn&_).
  split; [done|lia].
Qed.

Lemma within_refresh n i result :
  respects (within n) (Farmer.refresh_balance i result).
Proof.
  intros w. unfold Farmer.refresh_balance, update_stats, get_default.
  unfold_M. destruct result; unfold within; simpl; (split; [done|lia]).
Qed.

End effects.

(** One step of the walk through a body: a [bind] whose first part sends
    the request takes one unit of the budget, every other [bind] none. *)
Ltac within_prim :=
  first
    [ apply within_solve
    | apply within_refresh
    | apply within_modify; intros ?; by split
    | apply within_pure; intros ?; reflexivity ].

Ltac within_step :=
  lazymatch goal with
  | |- respects (within (S ?n)) (Http.post _ _ _ ≫= _) =>
      apply (within_bind 1 n); [apply within_post | intros ?; cbv beta zeta]
  | |- respects (within ?n) (_ ≫= _) =>
      apply (within_bind 0 n); [within_prim | intros ?; cbv beta zeta]
  | |- respects (within _) (if ?b then _ else _) => destruct b
  | |- respects (within _) (match ?b with _ => _ end) => destruct b
  | |- respects (within _) (mret _) => apply within_pure; intros ?; reflexivity
  | |- respects (within _) (lift _) => apply within_pure; intros ?; reflexivity
  end.

Lemma handle_challenge_within i token_id (n : nat) :
  ∀ depth challenge_response,
    Z.to_nat (3 - depth) = n →
    respects (within (S n))
      (Farmer.handle_challenge i token_id challenge_response depth).
Proof.
  induction n as [|n IH]; intros depth challenge_response Hn;
    rewrite Farmer.handle_challenge_equation_1;
    unfold mark_free, update_stats;
    repeat within_step; try lia.
  apply (IH (depth + 1)). lia.
Qed.

Lemma truthy_text s : s ≠ "" → truthy (PStr s) = true.
Proof.
  intros H. simpl. apply negb_true_iff, String.eqb_neq. done.
Qed.

Lemma well_formed_challenge ch cid prompt :
  ch !! "id" = Some cid → truthy cid = true →
  ch !! "prompt" = Some (PStr prompt) → prompt ≠ "" →
  truthy (PDict ch) = true ∧ Farmer.well_formed (PDict ch) = Ok true.
Proof.
  intros Hid Hcid Hp Hne.
  assert (truthy (PDict ch) = true) as Ht.
  { simpl. destruct (map_to_list ch) eqn:E; [|done].
    apply map_to_list_empty_iff in E. subst. done. }
  split; [done|]. unfold Farmer.well_formed. rewrite Ht. simpl.
  rewrite Hid. simpl. rewrite Hcid, Hp. simpl.
  f_equal. apply negb_true_iff, String.eqb_neq. done.
Qed.

(** A chain of failures, each with a fresh challenge, from the depth
    [depth]: the handler sends [4 - depth] answers and then gives up. *)
Lemma handle_challenge_chain i token_id (n : nat) :
  ∀ depth challenge_response w,
    Z.to_nat (3 - depth) = n → depth ≤ 3 →
    failing_server (env w) (net_calls w) →
    has_challenge challenge_response →
    ∃ w',
      Farmer.handle_challenge i token_id challenge_response depth w
      = (Ok (Farmer.failure "challenge_failed"), w')
      ∧ env w' = env w
      ∧ net_calls w' = (net_calls w + S n)%nat
      ∧ shared w' = shared w
      ∧ challenges_failed (stats (farmers w' i))
        = challenges_failed (stats (farmers w i)) + Z.of_nat (S n).
Proof.
  induction n as [|n IH];
    intros depth challenge_response w Hn Hdepth Hserver
      (d & ch & cid & prompt & -> & Hch & Hid & Hcid & Hp & Hne);
    rewrite Farmer.handle_challenge_equation_1;
    unfold get_default, Py.get; rewrite Hch; simpl default;
    step; rewrite Hid; simpl default; step; rewrite Hp; simpl default; step;
    rewrite Hcid, (truthy_text _ Hne); cbn [negb orb];
    step;
    destruct (solve_challenge_text prompt (style (farmers w i)) w)
      as (answer & w1 & Hsolve & He1 & Hs1 & Hf1 & Hn1 & _);
    step_with Hsolve; cbv zeta;
    step_with post_reply;
    rewrite He1, Hn1;
    destruct (Hserver (net_calls w) (client (farmers w i))
                (Http.post_request (client (farmers w i)) API_INSCRIBE
                   (Farmer.answer_payload token_id cid
                      (Farmer.clean_answer answer))) 30 (le_n _))
      as [(d2 & ch2 & cid2 & prompt2 & Hd2 & Hch2 & Hid2 & Hcid2 & Hp2 & Hne2) Hrest];
    rewrite Hd2 in Hrest |- *;
    destruct Hrest as (Hstatus & Hhash & Hearned & Herror);
    step; rewrite Hstatus;
    step; step; rewrite Hhash, Hearned; cbn [orb];
    rewrite Herror; simpl default; step;
    cbn [eq_str]; rewrite String.eqb_refl;
    unfold update_stats; step;
    rewrite Hch2; simpl default; step;
    destruct (well_formed_challenge ch2 cid2 prompt2 Hid2 Hcid2 Hp2 Hne2)
      as [_ Hwf];
    rewrite Hwf; step.
  - destruct (decide (depth < 3)) as [Hlt|_]; [lia|].
    eexists. split; [apply mret_eq|].
    unfold net_advance. simpl. rewrite decide_True by done. simpl.
    rewrite Hf1, Hs1. repeat split; [done|lia].
  - destruct (decide (depth < 3)) as [_|Hge]; [|lia].
    match goal with
    | |- context [Farmer.handle_challenge _ _ ?r ?dp ?w2] =>
        destruct (IH dp r w2) as (w' & Heq & He' & Hn' & Hs' & Hc')
    end.
    + lia.
    + lia.
    + intros k self req timeout Hk.
      unfold net_advance in Hk |- *. simpl in Hk |- *.
      rewrite He1. apply Hserver. lia.
    + exists (<["challenge" := PDict ch2]> ∅), ch2, cid2, prompt2.
      repeat split; try done.
    + exists w'. split; [exact Heq|].
      rewrite He', Hn', Hs', Hc'. clear Heq.
      unfold net_advance. simpl. rewrite decide_True by done. simpl.
      rewrite Hf1, Hs1. repeat split; try done; lia.
Qed.

(** C3.  [handle_challenge] is a total function: its recursive call is at
    [depth + 1] and only under [depth < 3], so [3 - depth] decreases.  For
    every server, from depth 0 it sends at most 4 answers: the first one
    and at most 3 for replacement challenges.  When every answer is met by
    [CHALLENGE_FAILED] with a fresh well-formed challenge, it sends exactly
    4 answers, counts 4 failed challenges, and reports [challenge_failed]
    instead of recursing a fourth time. *)
Theorem handle_challenge_bounded (i : nat) (token_id : Z)
    (challenge_response : pyval) (w : World) :
  (∀ depth, ∃ r w',
      Farmer.handle_challenge i token_id challenge_response depth w = (r, w')
      ∧ (net_calls w' ≤ net_calls w + S (Z.to_nat (3 - depth)))%nat)
  ∧ (∃ r w',
      Farmer.handle_challenge i token_id challenge_response 0 w = (r, w')
      ∧ (net_calls w' ≤ net_calls w + 4)%nat)
  ∧ (has_challenge challenge_response →
     failing_server (env w) (net_calls w) →
     ∃ w',
       Farmer.handle_challenge i token_id challenge_response 0 w
       = (Ok (Farmer.failure "challenge_failed"), w')
       ∧ net_calls w' = (net_calls w + 4)%nat
       ∧ challenges_failed (stats (farmers w' i))
         = challenges_failed (stats (farmers w i)) + 4).
Proof.
  assert (Hbound : ∀ depth, ∃ r w',
      Farmer.handle_challenge i token_id challenge_response depth w = (r, w')
      ∧ (net_calls w' ≤ net_calls w + S (Z.to_nat (3 - depth)))%nat).
  { intros depth.
    pose proof (handle_challenge_within i token_id _ depth challenge_response
                  eq_refl w) as [_ Hn].
    destruct (Farmer.handle_challenge _ _ _ _ w) as [r w'].
    exists r, w'. split; [done|]. simpl in Hn. lia. }
  split; [exact Hbound|]. split; [exact (Hbound 0)|].
  intros Hch Hserver.
  destruct (handle_challenge_chain i token_id 3 0 challenge_response w)
    as (w' & Heq & _ & Hn & _ & Hc); [done|lia|done|done|].
  exists w'. split; [exact Heq|]. split; [exact Hn | exact Hc].
Qed.

Lemma handle_challenge_bounded_witness :
  ∃ w',
    Farmer.handle_challenge 0 77 Sample.challenge_required 0
      (Sample.world (Sample.answering Sample.challenge_failed) SharedState.init)
    = (Ok (Farmer.failure "challenge_failed"), w')
    ∧ net_calls w' = 4%nat
    ∧ challenges_failed (stats (farmers w' 0%nat)) = 4.
Proof.
  destruct (handle_challenge_bounded 0 77 Sample.challenge_required
              (Sample.world (Sample.answering Sample.challenge_failed)
                 SharedState.init))
    as (_ & _ & Hchain).
  apply Hchain.
  - eexists _, _, _, _. repeat split; try reflexivity. discriminate.
  - intros k self req timeout _. split.
    + eexists _, _, _, _. repeat split; try reflexivity. discriminate.
    + repeat split.
Defined.


(** * Further properties of the code *)

(** ** Shared token registry *)

Lemma list_remove_not_in x l : x ∉ l → SharedState.list_remove x l = l.
Proof.
  induction l as [|y l IH]; [done|]. intros Hx. simpl.
  rewrite bool_decide_eq_false_2.
  - f_equal. apply IH. intros ?. apply Hx. by right.
  - intros ->. apply Hx. by left.
Qed.

(** X1.  Marking is idempotent and one-way.  A second [mark_free] of the
    same ID changes nothing; on a free list without repetition a second
    [mark_taken] of the same ID changes nothing; and once an ID is taken,
    [mark_free] cannot bring it back: it leaves the registry as it is. *)
Theorem mark_idempotent_one_way (i : Z) (s : SharedState.t) :
  SharedState.mark_free i (SharedState.mark_free i s) = SharedState.mark_free i s
  ∧ SharedState.mark_free i (SharedState.mark_taken i s)
    = SharedState.mark_taken i s
  ∧ (NoDup (SharedState.free_tokens s) →
     SharedState.mark_taken i (SharedState.mark_taken i s)
     = SharedState.mark_taken i s).
Proof.
  split; [|split].
  - unfold SharedState.mark_free.
    destruct (bool_decide (i ∉ SharedState.tried_tokens s)) eqn:E1; simpl.
    + destruct (bool_decide (i ∉ SharedState.free_tokens s)) eqn:E2; simpl.
      * rewrite E1. simpl.
        rewrite (bool_decide_eq_false_2 (i ∉ i :: SharedState.free_tokens s));
          [done|].
        intros H. apply H, list_elem_of_here.
      * by rewrite E1, E2.
    + by rewrite E1.
  - unfold SharedState.mark_free.
    rewrite (bool_decide_eq_false_2
               (i ∉ SharedState.tried_tokens (SharedState.mark_taken i s)));
      [done|].
    intros H. apply H, mark_taken_tried.
  - intros Hnd. unfold SharedState.mark_taken at 1.
    assert (i ∉ SharedState.free_tokens (SharedState.mark_taken i s)) as Hout.
    { unfold SharedState.mark_taken. case_bool_decide; simpl; [|done].
      by apply not_elem_of_list_remove. }
    rewrite (bool_decide_eq_false_2 _ Hout).
    destruct (SharedState.mark_taken i s) as [tried free ms] eqn:E.
    simpl. f_equal.
    assert (i ∈ tried) as Hi.
    { change tried with (SharedState.tried_tokens (SharedState.mk tried free ms)).
      rewrite <- E. apply mark_taken_tried. }
    apply leibniz_equiv. intros x. rewrite elem_of_union, elem_of_singleton.
    split; [intros [?| ->]; done | by left].
Qed.

Lemma mark_idempotent_one_way_witness :
  SharedState.mark_taken 40
    (SharedState.mark_taken 40 (SharedState.mk ∅ [77; 40] ∅))
  = SharedState.mark_taken 40 (SharedState.mk ∅ [77; 40] ∅).
Proof.
  apply (mark_idempotent_one_way 40 (SharedState.mk ∅ [77; 40] ∅)).
  repeat constructor; rewrite ?elem_of_cons; [|apply not_elem_of_nil].
  intros [?|?%not_elem_of_nil]; [discriminate|done].
Defined.

Lemma get_next_token_not_tried w t w' :
  SharedState.disjoint (shared w) →
  get_next_token w = (Ok (Some t), w') →
  t ∉ SharedState.tried_tokens (shared w).
Proof.
  intros Hd. rewrite get_next_token_eq.
  destruct (SharedState.free_tokens (shared w)) as [|front rest] eqn:Hfree.
  - destruct (SharedState.available (shared w)) as [|x l] eqn:Hav; [done|].
    intros [= <- _].
    pose proof (pick_elem_of x l (rand_index (env w) (rng_calls w))) as Hin.
    rewrite <- Hav in Hin at 2. by apply elem_of_available in Hin as [_ Hin].
  - intros [= <- _] Hin. apply (Hd _ Hin). rewrite Hfree. apply list_elem_of_here.
Qed.

(** X2.  An ID reported taken is never handed out again.  Start from a
    registry whose two collections are disjoint and whose free list repeats
    no ID, mark [i] taken, and let any sequence of [mark_taken] and
    [mark_free] calls follow: [get_next_token] does not return [i],
    whatever the random draw. *)
Theorem taken_never_drawn (s : SharedState.t) (i : Z)
    (cs : list SharedState.call) (w : World) :
  SharedState.disjoint s →
  NoDup (SharedState.free_tokens s) →
  shared w = SharedState.run (SharedState.mark_taken i s) cs →
  ∀ r w', get_next_token w = (r, w') → r ≠ Ok (Some i).
Proof.
  intros Hd Hn Hw r w' Hnext ->.
  assert (SharedState.inv (shared w)) as [Hd' _].
  { rewrite Hw. apply run_inv, mark_taken_inv. by split. }
  apply (get_next_token_not_tried _ _ _ Hd' Hnext).
  rewrite Hw. apply run_tried_mono, mark_taken_tried.
Qed.

Lemma taken_never_drawn_witness :
  (get_next_token
     (Sample.world Sample.offline
        (SharedState.run (SharedState.mark_taken 40 (SharedState.mk ∅ [40] ∅))
           [SharedState.MarkFree 40; SharedState.MarkFree 41]))).1
  ≠ Ok (Some 40).
Proof.
  destruct (get_next_token _) as [r w'] eqn:E. cbn [fst]. revert r w' E.
  apply (taken_never_drawn (SharedState.mk ∅ [40] ∅) 40
           [SharedState.MarkFree 40; SharedState.MarkFree 41]).
  - intros j Hj. by apply not_elem_of_empty in Hj.
  - repeat constructor. apply not_elem_of_nil.
  - reflexivity.
Defined.


(** ** Account worker: the other outcomes of [mine] *)

Lemma get_next_token_same w r w1 :
  get_next_token w = (r, w1) →
  env w1 = env w ∧ net_calls w1 = net_calls w
  ∧ farmers w1 = farmers w ∧ shared w1 = shared w.
Proof. intros H. by destruct (get_next_token_frame _ _ _ H) as [-> | ->]. Qed.

(** The first steps of [mine]: the draw, the request and its reply. *)
Ltac mine_enter Htok Hreply :=
  let He := fresh "He" in
  let Hn := fresh "Hn" in
  let Hf := fresh "Hf" in
  let Hs := fresh "Hs" in
  destruct (get_next_token_same _ _ _ Htok) as (He & Hn & Hf & Hs);
  unfold Farmer.mine, Farmer.get_next_token_id;
  step_with Htok;
  match goal with
  | |- context [?t =? 0] => destruct (Z.eqb_spec t 0) as [?|_]; [done|]
  end;
  step; step_with post_reply; rewrite He, Hn, Hf, Hreply.

(** X3.  A taken ID (scenario A of the specification).  When the reply to
    the inscription request is a dict with no 5xx status whose
    ["id_status"] is ["taken"], [mine] marks the ID taken in the registry,
    adds one to [tokens_taken], counts no mine, and returns the
    [token_taken] failure with the ID; the ID is then in the taken set and,
    on a free list without repetition, no longer in the free list. *)
Theorem mine_token_taken (i : nat) (w w1 : World) (token_id : Z)
    (d : gmap string pyval) :
  get_next_token w = (Ok (Some token_id), w1) →
  token_id ≠ 0 →
  Http.reply (env w) (net_calls w) (client (farmers w i))
    (Http.post_request (client (farmers w i)) API_INSCRIBE
       (Farmer.inscribe_payload token_id)) 30 = PDict d →
  in_ints (default (PInt 0) (d !! "status")) Farmer.server_statuses = false →
  d !! "id_status" = Some (PStr "taken") →
  ∃ w',
    Farmer.mine i w = (Ok (Farmer.token_taken token_id), w')
    ∧ shared w' = SharedState.mark_taken token_id (shared w)
    ∧ token_id ∈ SharedState.tried_tokens (shared w')
    ∧ (NoDup (SharedState.free_tokens (shared w)) →
       token_id ∉ SharedState.free_tokens (shared w'))
    ∧ tokens_taken (stats (farmers w' i)) = tokens_taken (stats (farmers w i)) + 1
    ∧ total_mines (stats (farmers w' i)) = total_mines (stats (farmers w i))
    ∧ net_calls w' = S (net_calls w).
Proof.
  intros Htok Hnz Hreply Hstatus Htaken.
  eexists. split.
  { mine_enter Htok Hreply.
    unfold get_default, Py.get. step. rewrite Hstatus.
    step. rewrite Htaken.
    change (eq_str (default PNone (Some (PStr "taken"))) "taken") with true.
    cbv iota.
    unfold mark_taken, update_stats. do 2 step. apply mret_eq. }
  destruct (get_next_token_same _ _ _ Htok) as (He & Hn & Hf & Hs).
  simpl. rewrite !decide_True by done. simpl. rewrite Hf, Hs.
  split; [done|]. split; [apply mark_taken_tried|].
  split; [|by rewrite Hn].
  intros Hnd. unfold SharedState.mark_taken.
  case_bool_decide; simpl; [by apply not_elem_of_list_remove | done].
Qed.

Lemma mine_token_taken_witness :
  ∃ w',
    Farmer.mine 0
      (Sample.world (Sample.answering_draw (PDict Sample.reply_taken)
                       Sample.index_40) SharedState.init)
    = (Ok (Farmer.token_taken 40), w')
    ∧ SharedState.tried_tokens (shared w') = {[40]}
    ∧ SharedState.free_tokens (shared w') = []
    ∧ tokens_taken (stats (farmers w' 0%nat)) = 1.
Proof.
  destruct (mine_token_taken 0
              (Sample.world (Sample.answering_draw (PDict Sample.reply_taken)
                               Sample.index_40) SharedState.init)
              (rng_advance
                 (Sample.world (Sample.answering_draw (PDict Sample.reply_taken)
                                  Sample.index_40) SharedState.init))
              40 Sample.reply_taken)
    as (w' & Heq & Hs & _ & _ & Ht & _).
  - vm_compute. reflexivity.
  - lia.
  - reflexivity.
  - reflexivity.
  - reflexivity.
  - exists w'. split; [exact Heq|]. rewrite Hs.
    change (shared (Sample.world _ SharedState.init)) with SharedState.init.
    unfold SharedState.mark_taken, SharedState.init.
    cbn [SharedState.free_tokens SharedState.tried_tokens
         SharedState.moment_states].
    rewrite bool_decide_eq_false_2 by apply not_elem_of_nil.
    cbn [SharedState.free_tokens SharedState.tried_tokens].
    split; [apply (left_id_L ∅ (∪)) | split; [reflexivity | exact Ht]].
Defined.

(** X4.  A server error.  When the inscription request is answered with
    one of the statuses 500, 502, 503, 504 and a body that is empty, cannot
    be read or is not JSON, [mine] returns the [server_error] failure with
    a retry hint of 60 and changes neither the registry nor any worker: a
    failed request costs the ID nothing. *)
Theorem mine_server_error (i : nat) (w w1 : World) (token_id : Z)
    (code : Z) (msg : string) (body : option string) :
  get_next_token w = (Ok (Some token_id), w1) →
  token_id ≠ 0 →
  opener_open (env w) (net_calls w) (Http._build_opener (client (farmers w i)))
    (Http.post_request (client (farmers w i)) API_INSCRIBE
       (Farmer.inscribe_payload token_id)) 30
  = Raise (HTTPError code msg body) →
  code ∈ Farmer.server_statuses →
  (∀ text, body = Some text → text ≠ "" →
           ∃ e, json_loads (env w) text = Raise e) →
  ∃ w',
    Farmer.mine i w = (Ok Farmer.server_error, w')
    ∧ Py.get Farmer.server_error "retry_after" = Ok (PInt 60)
    ∧ shared w' = shared w
    ∧ farmers w' = farmers w
    ∧ net_calls w' = S (net_calls w).
Proof.
  intros Htok Hnz Hopen Hcode Hbody.
  assert (Hreply :
    Http.reply (env w) (net_calls w) (client (farmers w i))
      (Http.post_request (client (farmers w i)) API_INSCRIBE
         (Farmer.inscribe_payload token_id)) 30
    = Http.error_status msg code).
  { unfold Http.reply. rewrite Hopen.
    destruct body as [text|]; [|done].
    destruct (String.eqb_spec text "") as [->|Hne]; [done|].
    destruct (Hbody text eq_refl Hne) as [e ->]. done. }
  assert (Hin : in_ints (PInt code) Farmer.server_statuses = true).
  { unfold Farmer.server_statuses in *.
    repeat (apply elem_of_cons in Hcode as [->|Hcode]; [done|]).
    by apply not_elem_of_nil in Hcode. }
  exists (net_advance w1). split.
  { mine_enter Htok Hreply.
    unfold Http.error_status, get_default. step.
    rewrite lookup_insert_ne by done. rewrite lookup_insert_eq.
    change (default (PInt 0) (Some (PInt code))) with (PInt code).
    rewrite Hin. apply mret_eq. }
  destruct (get_next_token_same _ _ _ Htok) as (He & Hn & Hf & Hs).
  unfold net_advance. cbn [shared farmers net_calls].
  repeat split; [done|done|by rewrite Hn].
Qed.

Lemma mine_server_error_witness :
  ∃ w',
    Farmer.mine 0 (Sample.world Sample.unavailable (SharedState.mk ∅ [77] ∅))
    = (Ok Farmer.server_error, w')
    ∧ shared w' = SharedState.mk ∅ [77] ∅.
Proof.
  destruct (mine_server_error 0
              (Sample.world Sample.unavailable (SharedState.mk ∅ [77] ∅))
              (Sample.world Sample.unavailable (SharedState.mk ∅ [77] ∅))
              77 503 "HTTP Error 503: Service Unavailable"
              (Some "<html>busy</html>"))
    as (w' & Heq & _ & Hs & _).
  - reflexivity.
  - lia.
  - reflexivity.
  - unfold Farmer.server_statuses. rewrite !elem_of_cons. auto.
  - intros text [= <-] _. eexists. reflexivity.
  - exists w'. split; [exact Heq | exact Hs].
Defined.

(** X5.  No candidate.  When the free list is empty and the taken set
    covers 25..1024, and also when the front of the free list is the ID 0
    (which Python takes for false), [mine] reports [all_tokens_taken]
    without sending any request and without changing the registry or a
    worker. *)
Theorem mine_no_candidate (i : nat) (w : World) :
  (SharedState.free_tokens (shared w) = []
   ∧ ∀ t, TOKEN_ID_MIN ≤ t ≤ TOKEN_ID_MAX →
          t ∈ SharedState.tried_tokens (shared w))
  ∨ (∃ rest, SharedState.free_tokens (shared w) = 0 :: rest) →
  Farmer.mine i w = (Ok (Farmer.failure "all_tokens_taken"), w).
Proof.
  intros Hcase.
  assert (get_next_token w = (Ok None, w)
          ∨ get_next_token w = (Ok (Some 0), w)) as [Hnext|Hnext].
  { rewrite get_next_token_eq.
    destruct Hcase as [[Hfree Hall]|[rest Hfree]]; rewrite Hfree; [|by right].
    destruct (SharedState.available (shared w)) as [|x l] eqn:Hav; [by left|].
    assert (x ∈ SharedState.available (shared w)) as Hx
      by (rewrite Hav; apply list_elem_of_here).
    apply elem_of_available in Hx as [Hr Hx]. by destruct (Hx (Hall _ Hr)). }
  - unfold Farmer.mine, Farmer.get_next_token_id. step_with Hnext. done.
  - unfold Farmer.mine, Farmer.get_next_token_id. step_with Hnext. done.
Qed.

Lemma mine_no_candidate_witness :
  Farmer.mine 0 (Sample.world Sample.offline (SharedState.mk ∅ [0; 77] ∅))
  = (Ok (Farmer.failure "all_tokens_taken"),
     Sample.world Sample.offline (SharedState.mk ∅ [0; 77] ∅)).
Proof.
  apply mine_no_candidate. right. by exists [77].
Defined.

(** X6.  A rate limit.  When the reply is a dict with no 5xx status, no
    taken status, no truthy hash or earned amount, and the error
    [RATE_LIMITED], [mine] returns the [rate_limited] failure whose
    [retry_after] is the reply's, or 60 when the reply has none, and
    changes neither the registry nor any worker. *)
Theorem mine_rate_limited (i : nat) (w w1 : World) (token_id : Z)
    (d : gmap string pyval) :
  get_next_token w = (Ok (Some token_id), w1) →
  token_id ≠ 0 →
  Http.reply (env w) (net_calls w) (client (farmers w i))
    (Http.post_request (client (farmers w i)) API_INSCRIBE
       (Farmer.inscribe_payload token_id)) 30 = PDict d →
  in_ints (default (PInt 0) (d !! "status")) Farmer.server_statuses = false →
  eq_str (default PNone (d !! "id_status")) "taken" = false →
  truthy (default PNone (d !! "hash"))
  || truthy (default PNone (d !! "cw_earned")) = false →
  d !! "error" = Some (PStr "RATE_LIMITED") →
  ∃ w',
    Farmer.mine i w
    = (Ok (Farmer.rate_limited (default (PInt 60) (d !! "retry_after"))), w')
    ∧ shared w' = shared w
    ∧ farmers w' = farmers w
    ∧ net_calls w' = S (net_calls w).
Proof.
  intros Htok Hnz Hreply Hstatus Htaken Hmined Herror.
  exists (net_advance w1). split.
  { mine_enter Htok Hreply.
    unfold get_default, Py.get. step. rewrite Hstatus.
    step. rewrite Htaken.
    step. rewrite Herror.
    change (eq_str (default PNone (Some (PStr "RATE_LIMITED")))
              "CHALLENGE_REQUIRED") with false.
    cbv iota. do 2 step. rewrite Hmined.
    change (eq_str (default PNone (Some (PStr "RATE_LIMITED")))
              "RATE_LIMITED") with true.
    cbv iota. step. apply mret_eq. }
  destruct (get_next_token_same _ _ _ Htok) as (He & Hn & Hf & Hs).
  unfold net_advance. cbn [shared farmers net_calls].
  repeat split; [done|done|by rewrite Hn].
Qed.

Lemma mine_rate_limited_witness :
  ∃ w',
    Farmer.mine 0
      (Sample.world (Sample.answering (PDict Sample.reply_rate_limited))
         (SharedState.mk ∅ [77] ∅))
    = (Ok (Farmer.rate_limited (PInt 120)), w')
    ∧ shared w' = SharedState.mk ∅ [77] ∅.
Proof.
  destruct (mine_rate_limited 0
              (Sample.world (Sample.answering (PDict Sample.reply_rate_limited))
                 (SharedState.mk ∅ [77] ∅))
              (Sample.world (Sample.answering (PDict Sample.reply_rate_limited))
                 (SharedState.mk ∅ [77] ∅))
              77 Sample.reply_rate_limited)
    as (w' & Heq & Hs & _); try reflexivity; [lia|].
  exists w'. split; [exact Heq | exact Hs].
Defined.

(** X7.  A reply that is no JSON object.  [_execute] returns whatever JSON
    document the body holds; when that is a list, a text, a number or
    null, the first [result.get] of [mine] raises an [AttributeError].
    The request has been sent, and neither the registry nor any worker has
    changed. *)
Theorem mine_reply_not_object (i : nat) (w w1 : World) (token_id : Z)
    (v : pyval) :
  get_next_token w = (Ok (Some token_id), w1) →
  token_id ≠ 0 →
  Http.reply (env w) (net_calls w) (client (farmers w i))
    (Http.post_request (client (farmers w i)) API_INSCRIBE
       (Farmer.inscribe_payload token_id)) 30 = v →
  (∀ d, v ≠ PDict d) →
  ∃ w',
    Farmer.mine i w = (Raise AttributeError, w')
    ∧ shared w' = shared w
    ∧ farmers w' = farmers w
    ∧ net_calls w' = S (net_calls w).
Proof.
  intros Htok Hnz Hreply Hv.
  exists (net_advance w1). split.
  { mine_enter Htok Hreply.
    erewrite bind_raise; [done|].
    rewrite lift_eq. destruct v; try done. by destruct (Hv d). }
  destruct (get_next_token_same _ _ _ Htok) as (He & Hn & Hf & Hs).
  unfold net_advance. cbn [shared farmers net_calls].
  repeat split; [done|done|by rewrite Hn].
Qed.

Lemma mine_reply_not_object_witness :
  ∃ w',
    Farmer.mine 0
      (Sample.world (Sample.answering (PList [])) (SharedState.mk ∅ [77] ∅))
    = (Raise AttributeError, w')
    ∧ shared w' = SharedState.mk ∅ [77] ∅.
Proof.
  destruct (mine_reply_not_object 0
              (Sample.world (Sample.answering (PList []))
                 (SharedState.mk ∅ [77] ∅))
              (Sample.world (Sample.answering (PList []))
                 (SharedState.mk ∅ [77] ∅))
              77 (PList []))
    as (w' & Heq & Hs & _); try reflexivity; [lia|done|].
  exists w'. split; [exact Heq | exact Hs].
Defined.

Lemma within_next_token n : respects (within n) get_next_token.
Proof.
  intros w. destruct (get_next_token w) as [r w1] eqn:H.
  destruct (get_next_token_same _ _ _ H) as (He & Hn & _). simpl.
  split; [done|lia].
Qed.

(** X8.  The cost of one mining cycle.  Whatever the server answers and
    whatever the solver produces, also when the cycle ends with an
    exception, one call of [mine] sends at most 5 requests to the server:
    the inscription request and at most 4 answers to challenges. *)
Theorem mine_request_budget (i : nat) (w : World) :
  (net_calls w ≤ net_calls (Farmer.mine i w).2 ≤ net_calls w + 5)%nat
  ∧ env (Farmer.mine i w).2 = env w.
Proof.
  assert (respects (within 5) (Farmer.mine i)) as H.
  { unfold Farmer.mine, Farmer.get_next_token_id.
    apply (within_bind 0 5); [apply within_next_token|].
    intros [token|]; [|apply within_pure; intros ?; reflexivity].
    unfold mark_taken, mark_free, update_stats.
    repeat within_step.
    apply (handle_challenge_within i token 3 0). done. }
  destruct (H w) as [He Hn]. done.
Qed.

Section worker_frame.
Context (i : nat).

#[local] Instance worker_frame_refl : Reflexive (worker_frame i).
Proof. intros w. by repeat split. Qed.

#[local] Instance worker_frame_trans : Transitive (worker_frame i).
Proof.
  intros w1 w2 w3 (?&Ho1&?&?&?&?&?&?&?) (?&Ho2&?&?&?&?&?&?&?).
  repeat split; try congruence.
  - intros j Hj. rewrite Ho2, Ho1; done.
  - by etrans.
Qed.

Lemma respects_gets {A} (R : World → World → Prop) (f : World → A) :
  Reflexive R → respects R (gets f).
Proof. intros HR w. apply HR. Qed.

Lemma frame_update_stats f : respects (worker_frame i) (update_stats i f).
Proof.
  intros w. unfold update_stats, modify. cbn [snd].
  repeat split; try done.
  all: try (intros j Hj; cbn [farmers set_farmer]; by rewrite decide_False).
  all: cbn [farmers set_farmer]; by rewrite decide_True.
Qed.

Lemma frame_mark_free t : respects (worker_frame i) (mark_free t).
Proof.
  intros w. unfold mark_free, modify. cbn [snd].
  repeat split; try done; cbn [shared set_shared];
    unfold SharedState.mark_free; by destruct (_ && _).
Qed.

Lemma frame_mark_taken t : respects (worker_frame i) (mark_taken t).
Proof.
  intros w. unfold mark_taken, modify. cbn [snd].
  repeat split; try done; cbn [shared set_shared];
    unfold SharedState.mark_taken; case_bool_decide; simpl; try done;
    apply union_subseteq_l.
Qed.

Lemma frame_post self url data : respects (worker_frame i) (Http.post self url data).
Proof. intros w. rewrite post_reply. by repeat split. Qed.

Lemma frame_solve prompt style :
  respects (worker_frame i) (LLMClient.solve_challenge prompt style).
Proof.
  intros w.
  destruct (solve_challenge_llm_only prompt style w) as (He&Hs&Hf&Hn&Hc).
  repeat split; try congruence.
  all: try (intros j _; by rewrite Hf).
  all: by rewrite Hs.
Qed.

Lemma frame_refresh result :
  respects (worker_frame i) (Farmer.refresh_balance i result).
Proof.
  unfold Farmer.refresh_balance.
  repeat (apply respects_bind;
          [apply _
          |first [apply respects_gets; apply _ | apply respects_lift; apply _
                 | apply frame_update_stats]
          |intros ?]).
  apply frame_update_stats.
Qed.

Lemma frame_next_token : respects (worker_frame i) get_next_token.
Proof.
  intros w. destruct (get_next_token w) as [r w1] eqn:H.
  by destruct (get_next_token_frame _ _ _ H) as [-> | ->].
Qed.

End worker_frame.

Ltac frame_prim :=
  first
    [ apply frame_solve
    | apply frame_refresh
    | apply frame_post
    | apply frame_update_stats
    | apply frame_mark_free
    | apply frame_mark_taken
    | apply respects_gets; apply worker_frame_refl
    | apply respects_lift; apply worker_frame_refl
    | apply respects_mret; apply worker_frame_refl ].

Ltac frame_step :=
  lazymatch goal with
  | |- respects _ (_ ≫= _) =>
      apply respects_bind;
      [apply worker_frame_trans | frame_prim | intros ?; cbv beta zeta]
  | |- respects _ (if ?b then _ else _) => destruct b
  | |- respects _ (match ?b with _ => _ end) => destruct b
  | |- respects _ (mret _) => apply respects_mret; apply worker_frame_refl
  | |- respects _ (lift _) => apply respects_lift; apply worker_frame_refl
  end.

Lemma handle_challenge_frame i token_id (n : nat) :
  ∀ depth challenge_response,
    Z.to_nat (3 - depth) = n →
    respects (worker_frame i)
      (Farmer.handle_challenge i token_id challenge_response depth).
Proof.
  induction n as [|n IH]; intros depth challenge_response Hn;
    rewrite Farmer.handle_challenge_equation_1;
    repeat frame_step; try lia.
  apply (IH (depth + 1)). lia.
Qed.

(** X9.  What a mining cycle leaves alone.  For every server and every
    solver, also when the cycle raises, a call of [mine] by the worker [i]
    changes no other worker, not the scheduler, client, identity or
    running flag of [i], and no persisted moment state; it reads no clock;
    and it removes no ID from the taken set. *)
Theorem mine_frame (i : nat) (w : World) :
  worker_frame i w (Farmer.mine i w).2.
Proof.
  assert (respects (worker_frame i) (Farmer.mine i)) as H; [|apply H].
  unfold Farmer.mine, Farmer.get_next_token_id.
  apply respects_bind; [apply worker_frame_trans | apply frame_next_token |].
  intros [token|]; [|apply respects_mret; apply worker_frame_refl].
  repeat frame_step.
  apply (handle_challenge_frame i token 3 0). done.
Qed.


(** ** Account worker: the other outcomes of [handle_challenge] *)

(** X10.  A challenge without identifier or prompt.  When the response has
    no ["challenge"] entry, or its challenge has a missing or falsy ["id"]
    or ["prompt"], [handle_challenge] reports [invalid_challenge] at once:
    the solver is not asked, no request is sent, and the world is left
    exactly as it was. *)
Theorem handle_challenge_invalid (i : nat) (token_id depth : Z)
    (d : gmap string pyval) (w : World) :
  d !! "challenge" = None
  ∨ (∃ ch, d !! "challenge" = Some (PDict ch)
           ∧ (truthy (default PNone (ch !! "id")) = false
              ∨ truthy (default (PStr "") (ch !! "prompt")) = false)) →
  Farmer.handle_challenge i token_id (PDict d) depth w
  = (Ok (Farmer.failure "invalid_challenge"), w).
Proof.
  intros Hcase. rewrite Farmer.handle_challenge_equation_1.
  unfold get_default, Py.get.
  destruct Hcase as [Hnone|(ch & Hch & Hbad)].
  - rewrite Hnone. cbn [default]. do 3 step. done.
  - rewrite Hch. cbn [default]. do 3 step.
    destruct Hbad as [-> | ->]; [done|].
    by rewrite orb_true_r.
Qed.

Lemma handle_challenge_invalid_witness :
  Farmer.handle_challenge 0 77
    (PDict (<["error" := PStr "CHALLENGE_REQUIRED"]> ∅)) 0
    (Sample.world Sample.offline SharedState.init)
  = (Ok (Farmer.failure "invalid_challenge"),
     Sample.world Sample.offline SharedState.init).
Proof. apply handle_challenge_invalid. by left. Defined.

(** X11.  A challenge passed.  When the response embeds a well-formed
    challenge and the reply to the answer is a dict with no 5xx status
    whose ["hash"] or ["cw_earned"] is truthy, [handle_challenge] sends
    that one request, calls [mark_free] on the ID, adds one to
    [challenges_passed] and one to [total_mines], refreshes the cached
    balance and trust from the reply where it has them, counts no failed
    challenge, and returns the reply laid over
    [{"success": True, "challenge_cooldown": True, "token_id": id}]. *)
Theorem handle_challenge_passed (i : nat) (token_id depth : Z)
    (challenge_response : pyval) (d : gmap string pyval) (w : World) :
  has_challenge challenge_response →
  (∀ req, Http.reply (env w) (net_calls w) (client (farmers w i)) req 30
          = PDict d) →
  in_ints (default (PInt 0) (d !! "status")) Farmer.server_statuses = false →
  truthy (default PNone (d !! "hash"))
  || truthy (default PNone (d !! "cw_earned")) = true →
  ∃ w',
    Farmer.handle_challenge i token_id challenge_response depth w
    = (Ok (PDict (d ∪ Farmer.challenge_passed token_id)), w')
    ∧ shared w' = SharedState.mark_free token_id (shared w)
    ∧ challenges_passed (stats (farmers w' i))
      = challenges_passed (stats (farmers w i)) + 1
    ∧ total_mines (stats (farmers w' i)) = total_mines (stats (farmers w i)) + 1
    ∧ challenges_failed (stats (farmers w' i))
      = challenges_failed (stats (farmers w i))
    ∧ cw_balance (stats (farmers w' i))
      = default (cw_balance (stats (farmers w i))) (d !! "cw_balance")
    ∧ trust_score (stats (farmers w' i))
      = default (trust_score (stats (farmers w i))) (d !! "trust_score")
    ∧ net_calls w' = S (net_calls w)
    ∧ (d !! "challenge_cooldown" = None →
       (d ∪ Farmer.challenge_passed token_id) !! "challenge_cooldown"
       = Some (PBool true)).
Proof.
  intros (r & ch & cid & prompt & -> & Hch & Hid & Hcid & Hp & Hne)
    Hreply Hstatus Hpassed.
  destruct (solve_challenge_text prompt (style (farmers w i)) w)
    as (answer & w1 & Hsolve & He1 & Hs1 & Hf1 & Hn1 & _).
  eexists. split.
  { rewrite Farmer.handle_challenge_equation_1.
    unfold get_default, Py.get. rewrite Hch. simpl default.
    step. rewrite Hid. simpl default. step. rewrite Hp. simpl default. step.
    rewrite Hcid, (truthy_text _ Hne). cbn [negb orb].
    step. step_with Hsolve. cbv zeta.
    step_with post_reply. rewrite He1, Hn1, Hreply.
    step. rewrite Hstatus. do 2 step. rewrite Hpassed.
    unfold mark_free, update_stats, Farmer.refresh_balance, Farmer.merged.
    unfold get_default. unfold_M. reflexivity. }
  cbn [shared farmers net_calls set_farmer set_shared net_advance snd stats
       set_stats].
  rewrite !decide_True by done.
  cbn [stats set_stats challenges_passed total_mines challenges_failed
       cw_balance trust_score set_trust_score set_cw_balance
       set_total_mines set_challenges_passed].
  rewrite Hf1, Hs1, Hn1.
  repeat split; try done.
  intros Hnone. by rewrite lookup_union_r.
Qed.

Lemma handle_challenge_passed_witness :
  ∃ w',
    Farmer.handle_challenge 0 77 Sample.challenge_required 0
      (Sample.world (Sample.answering (PDict Sample.reply_B))
         (SharedState.mk ∅ [] ∅))
    = (Ok (PDict (Sample.reply_B ∪ Farmer.challenge_passed 77)), w')
    ∧ SharedState.free_tokens (shared w') = [77]
    ∧ challenges_passed (stats (farmers w' 0%nat)) = 1
    ∧ total_mines (stats (farmers w' 0%nat)) = 1.
Proof.
  destruct (handle_challenge_passed 0 77 0 Sample.challenge_required
              Sample.reply_B
              (Sample.world (Sample.answering (PDict Sample.reply_B))
                 (SharedState.mk ∅ [] ∅)))
    as (w' & Heq & Hs & Hp & Hm & _).
  - eexists _, _, _, _. repeat split; try reflexivity. discriminate.
  - intros req. reflexivity.
  - reflexivity.
  - reflexivity.
  - exists w'. split; [exact Heq|]. rewrite Hs.
    split; [reflexivity|]. split; [exact Hp | exact Hm].
Defined.


(** ** Challenge solver *)

Lemma truncate_words_facts (k : Z) (answer : string) :
  0 ≤ k →
  let out := LLMClient.truncate_words k answer in
  Z.of_nat (length (Str.split out)) ≤ k
  ∧ (length (Str.split out) ≤ length (Str.split answer))%nat
  ∧ (∃ j, Str.split out = take j (Str.split answer))
  ∧ (Z.of_nat (length (Str.split answer)) ≤ k → out = answer).
Proof.
  intros Hk out. subst out.
  destruct (truncate_words_spec k answer Hk) as [Hkeep Hcut].
  destruct (Z_le_gt_dec (Z.of_nat (length (Str.split answer))) k) as [Hle|Hgt].
  - rewrite (Hkeep Hle). split; [done|]. split; [done|]. split; [|done].
    exists (length (Str.split answer)). by rewrite firstn_all.
  - destruct Hcut as [Hsplit Hlen]; [lia|].
    split; [lia|]. split; [lia|]. split; [by eexists|lia].
Qed.

Lemma demand_nonneg prompt :
  (∀ n, LLMClient.exactly_demand prompt = Some n → 0 ≤ n)
  ∧ (∀ hi, LLMClient.between_demand prompt = Some hi → 0 ≤ hi).
Proof.
  unfold LLMClient.exactly_demand, LLMClient.between_demand.
  split; intros n Hn; destruct (Str.search _ _); simplify_eq/=;
    apply int_of_digits_nonneg.
Qed.

Lemma validate_answer_facts (prompt answer : string) :
  let out := LLMClient._validate_answer prompt answer in
  (∃ j, Str.split out = take j (Str.split answer))
  ∧ (∀ n, LLMClient.exactly_demand prompt = Some n →
          Z.of_nat (length (Str.split out)) ≤ n)
  ∧ (∀ hi, LLMClient.between_demand prompt = Some hi →
           Z.of_nat (length (Str.split out)) ≤ hi)
  ∧ (LLMClient.exactly_demand prompt = None →
     LLMClient.between_demand prompt = None → out = answer).
Proof.
  destruct (demand_nonneg prompt) as [Hex Hbt].
  unfold LLMClient._validate_answer.
  destruct (LLMClient.exactly_demand prompt) as [n|];
    destruct (LLMClient.between_demand prompt) as [hi|]; cbv zeta.
  - destruct (truncate_words_facts n answer (Hex n eq_refl))
      as (Hn & Hle & [j Hj] & _).
    destruct (truncate_words_facts hi (LLMClient.truncate_words n answer)
                (Hbt hi eq_refl)) as (Hhi & Hle2 & [j2 Hj2] & _).
    split; [|split; [|split]].
    + exists (j2 `min` j)%nat. by rewrite Hj2, Hj, take_take.
    + intros ? [= <-]. lia.
    + intros ? [= <-]. lia.
    + done.
  - destruct (truncate_words_facts n answer (Hex n eq_refl))
      as (Hn & Hle & Hj & _).
    split; [done|]. split; [by intros ? [= <-]|]. split; done.
  - destruct (truncate_words_facts hi answer (Hbt hi eq_refl))
      as (Hn & Hle & Hj & _).
    split; [done|]. split; [done|]. split; [by intros ? [= <-]|done].
  - split; [|split; [done|split; done]].
    exists (length (Str.split answer)). by rewrite firstn_all.
Qed.

Lemma validate_answer_within (prompt answer : string) :
  (∀ n, LLMClient.exactly_demand prompt = Some n →
        Z.of_nat (length (Str.split answer)) ≤ n) →
  (∀ hi, LLMClient.between_demand prompt = Some hi →
         Z.of_nat (length (Str.split answer)) ≤ hi) →
  LLMClient._validate_answer prompt answer = answer.
Proof.
  intros Hn Hhi. destruct (demand_nonneg prompt) as [Hex Hbt].
  assert (∀ k, 0 ≤ k → Z.of_nat (length (Str.split answer)) ≤ k →
               LLMClient.truncate_words k answer = answer) as Hkeep.
  { intros k Hk Hle.
    by destruct (truncate_words_facts k answer Hk) as (_ & _ & _ & ->). }
  unfold LLMClient._validate_answer.
  destruct (LLMClient.exactly_demand prompt) as [n|] eqn:En;
    destruct (LLMClient.between_demand prompt) as [hi|] eqn:Eb; cbv zeta.
  - rewrite (Hkeep n) by auto. rewrite (Hkeep hi) by auto. done.
  - rewrite (Hkeep n) by auto. done.
  - rewrite (Hkeep hi) by auto. done.
  - done.
Qed.

Lemma validate_answer_fixed (prompt answer : string) :
  LLMClient._validate_answer prompt
    (LLMClient._validate_answer prompt answer)
  = LLMClient._validate_answer prompt answer.
Proof.
  destruct (validate_answer_facts prompt answer) as (_ & Hn & Hhi & _).
  by apply validate_answer_within.
Qed.




Lemma attempt_outcome prompt style w r w1 :
  LLMClient.attempt prompt style w = (r, w1) →
  llm_calls w1 = S (llm_calls w) ∧ rng_calls w1 = rng_calls w
  ∧ match r with
    | Ok a => request_count w1 = request_count w + 1
              ∧ LLMClient._validate_answer prompt a = a
    | Raise _ => request_count w1 = request_count w
    end.
Proof.
  unfold LLMClient.attempt, LLMClient.urlopen, Http.loads. unfold_M.
  repeat case_match; intros [= <- <-]; simplify_eq/=;
    (split; [done|]); (split; [done|]); try done.
  split; [done|]. apply validate_answer_fixed.
Qed.

(** X14.  [solve_challenge] always answers a text prompt, after one or two
    calls of the language-model service.  Either a call succeeded: the
    answer is already repaired for the prompt (so within every word count
    the prompt demands), the counter of solved requests grew by one and no
    random draw was made; or both calls failed: the answer is one of the
    five canned sentences, picked at random and NOT repaired, and the
    counter is unchanged.  Nothing but the client's own counters changes.
    A prompt that is not a text raises a [TypeError] before any call. *)
Theorem solve_challenge_outcomes (prompt : pyval) (style : string) (w : World) :
  match prompt with
  | PStr p =>
      ∃ a w', LLMClient.solve_challenge prompt style w = (Ok a, w')
        ∧ llm_only w w'
        ∧ ((request_count w' = request_count w + 1
            ∧ (llm_calls w < llm_calls w' ≤ llm_calls w + 2)%nat
            ∧ rng_calls w' = rng_calls w
            ∧ LLMClient._validate_answer p a = a)
           ∨ (request_count w' = request_count w
              ∧ llm_calls w' = (llm_calls w + 2)%nat
              ∧ rng_calls w' = S (rng_calls w)
              ∧ a ∈ LLMClient.fallback_answers))
  | _ => ∃ e, LLMClient.solve_challenge prompt style w = (Raise e, w)
  end.
Proof.
  destruct prompt as [| | |p| |]; try (eexists; reflexivity).
  destruct (solve_challenge_text p style w) as (a & w' & Heq & Hframe).
  exists a, w'. split; [done|]. split; [done|].
  revert Heq. unfold LLMClient.solve_challenge. simpl LLMClient.solve_loop.
  unfold try_except.
  destruct (LLMClient.attempt p style w) as [[a1|e1] w1] eqn:H1;
    apply attempt_outcome in H1 as (Hl1 & Hr1 & Hc1).
  { intros [= <- <-]. left. destruct Hc1. repeat split; try done; lia. }
  destruct (LLMClient.attempt p style w1) as [[a2|e2] w2] eqn:H2;
    apply attempt_outcome in H2 as (Hl2 & Hr2 & Hc2).
  { intros [= <- <-]. left. destruct Hc2.
    repeat split; try done; try lia; congruence. }
  unfold LLMClient._fallback_answer, Random.choice, LLMClient.fallback_answers.
  intros [= <- <-]. right. unfold rng_advance; cbn [request_count llm_calls rng_calls].
  split; [lia|]. split; [lia|]. split; [congruence|]. apply pick_elem_of.
Qed.


(** ** Moments scheduler *)

Lemma get_next_post_time_eq i w :
  Moments.get_next_post_time i w =
    let m := moments (farmers w i) in
    if posted m >=? MAX_MOMENTS then (Ok None, w)
    else
      match last_post m with
      | Some last => (Ok (Some (last + Moments.cooldown)), w)
      | None => (Ok (Some (clock (env w) (clock_reads w))), clock_advance w)
      end.
Proof.
  unfold Moments.get_next_post_time. unfold_M. simpl.
  destruct (posted _ >=? _); [done|]. by destruct (last_post _).
Qed.

Lemma can_post_total i w :
  ∃ can reason w1,
    Moments.can_post i w = (Ok (can, reason), w1)
    ∧ (w1 = w ∨ w1 = clock_advance w)
    ∧ (can = true → posted (moments (farmers w i)) < MAX_MOMENTS).
Proof.
  rewrite can_post_eq. cbv zeta.
  destruct (posted _ >=? MAX_MOMENTS) eqn:E.
  { eexists _, _, _. split; [reflexivity|]. split; [by left|done]. }
  destruct (last_post _).
  - destruct (_ <? _); eexists _, _, _;
      (split; [reflexivity|]); (split; [by right|]); intros; lia.
  - eexists _, _, _. split; [reflexivity|]. split; [by left|]. intros; lia.
Qed.

Lemma moments_frame_refl i w : moments_frame i w w.
Proof. unfold moments_frame. by repeat split. Qed.

Lemma moments_frame_trans i w1 w2 w3 :
  moments_frame i w1 w2 → moments_frame i w2 w3 → moments_frame i w1 w3.
Proof.
  intros (He & Hs & Hf & Hst & Hc & Hi & Hn & Hk)
         (He' & Hs' & Hf' & Hst' & Hc' & Hi' & Hn' & Hk').
  unfold moments_frame.
  split; [congruence|]. split; [congruence|].
  split; [intros j Hj; rewrite Hf', Hf; done|].
  split; [congruence|]. split; [congruence|]. split; [congruence|].
  split; lia.
Qed.

Lemma can_post_moments_frame i w can reason w1 :
  Moments.can_post i w = (Ok (can, reason), w1) →
  moments_frame i w w1 ∧ farmers w1 = farmers w ∧ net_calls w1 = net_calls w.
Proof.
  intros Hcan.
  destruct (can_post_total i w) as (can' & reason' & w1' & Hcan' & Hw & _).
  rewrite Hcan in Hcan'. injection Hcan' as <- <- <-.
  destruct Hw as [-> | ->].
  - split; [apply moments_frame_refl|done].
  - split; [|done]. unfold moments_frame. simpl.
    repeat split; try done; lia.
Qed.

(** What one call of [post] does. *)
Lemma post_outcome i w :
  let m := moments (farmers w i) in
  ∃ r w',
    Moments.post i w = (r, w')
    ∧ moments_frame i w w'
    ∧ (net_calls w' ≤ S (net_calls w))%nat
    ∧ ((success_of r = true
        ∧ posted m < MAX_MOMENTS
        ∧ net_calls w' = S (net_calls w)
        ∧ ∃ content t,
            r = Ok (Moments.posted_report content (posted m + 1))
            ∧ moments (farmers w' i) = mkMoments (posted m + 1) (Some t))
       ∨ (success_of r = false
          ∧ moments (farmers w' i) = m)).
Proof.
  intros m.
  destruct (can_post_total i w) as (can & reason & w1 & Hcan & _ & Hlt).
  destruct (can_post_moments_frame _ _ _ _ _ Hcan) as (Hfr1 & Hf1 & Hn1).
  unfold Moments.post. step_with Hcan.
  destruct can; cbn [negb].
  2: { eexists _, _. split; [apply mret_eq|]. split; [done|].
       split; [lia|]. right. split; [reflexivity|]. by rewrite Hf1. }
  destruct (generate_content_frame w1)
    as (content & w2 & Hgen & He2 & Hs2 & Hf2 & Hn2 & Hc2).
  assert (moments_frame i w w2) as Hfr2.
  { eapply moments_frame_trans; [exact Hfr1|].
    unfold moments_frame. rewrite He2, Hs2, Hf2, Hn2, Hc2. by repeat split. }
  step_with Hgen. step. step_with post_reply.
  set (result := Http.reply _ _ _ _ _).
  assert (moments_frame i w (net_advance w2)) as Hfr3.
  { eapply moments_frame_trans; [exact Hfr2|].
    unfold moments_frame. simpl. repeat split; try done; lia. }
  destruct (Py.get result "success") as [flag|e] eqn:Hflag.
  - step. destruct (truthy flag) eqn:Ht.
    + eexists _, _. split; [reflexivity|].
      destruct Hfr3 as (He & Hs & Hf & Hst & Hc & Hi & Hn & Hk).
      simpl in He, Hs, Hf, Hst, Hc, Hi, Hn, Hk.
      split.
      { unfold moments_frame. simpl. rewrite !decide_True by done. simpl.
        split; [done|]. split; [done|].
        split; [intros j Hj; rewrite !decide_False by done; by apply Hf|].
        repeat split; try done; lia. }
      simpl. rewrite !decide_True by done. simpl.
      split; [lia|]. left.
      split; [reflexivity|]. split; [by apply Hlt|]. split; [lia|].
      eexists _, _. rewrite Hf2, Hf1. fold m. split; reflexivity.
    + eexists _, _. split; [apply mret_eq|]. split; [done|].
      simpl. split; [lia|]. right.
      split; [by rewrite Hflag|]. by rewrite Hf2, Hf1.
  - eexists _, _. split; [erewrite bind_raise; [reflexivity|apply lift_eq]|].
    split; [done|]. simpl. split; [lia|]. right.
    split; [done|]. by rewrite Hf2, Hf1.
Qed.

(** X15.  [get_next_post_time] and [can_post] agree.  Neither raises nor
    touches a worker.  The time is [None] exactly when the quota of
    [MAX_MOMENTS] posts is used up, and [can_post] says yes exactly when
    there is a next time and the clock has reached it: the time is the
    last post plus five hours, or the present moment when nothing has been
    posted yet. *)
Theorem next_post_time_agrees (i : nat) (w : World) :
  let m := moments (farmers w i) in
  let now := clock (env w) (clock_reads w) in
  ∃ t w1 can reason w2,
    Moments.get_next_post_time i w = (Ok t, w1)
    ∧ Moments.can_post i w = (Ok (can, reason), w2)
    ∧ farmers w1 = farmers w
    ∧ (t = None ↔ MAX_MOMENTS ≤ posted m)
    ∧ (∀ last, last_post m = Some last → posted m < MAX_MOMENTS →
               t = Some (last + 5 * 3600 * 1000000))
    ∧ (can = true ↔ ∃ t', t = Some t' ∧ t' ≤ now).
Proof.
  intros m now.
  rewrite get_next_post_time_eq, can_post_eq. cbv zeta. fold m. fold now.
  destruct (posted m >=? MAX_MOMENTS) eqn:E.
  { eexists _, _, _, _, _. split; [reflexivity|]. split; [reflexivity|].
    split; [done|]. split; [split; [lia|done]|].
    split; [intros; lia|]. split; [done|]. by intros (t' & [=] & _). }
  destruct (last_post m) as [last|].
  - destruct (now - last <? Moments.cooldown) eqn:Ec;
      eexists _, _, _, _, _; (split; [reflexivity|]);
      (split; [reflexivity|]); (split; [done|]);
      (split; [split; [done|lia]|]);
      (split; [by intros ? [= <-] _|]).
    + split; [done|]. intros (t' & [= <-] & Hle).
      unfold Moments.cooldown, MOMENT_COOLDOWN_HOURS in *. lia.
    + split; [|done]. intros _. eexists. split; [done|].
      unfold Moments.cooldown, MOMENT_COOLDOWN_HOURS in *. lia.
  - eexists _, _, _, _, _. split; [reflexivity|]. split; [reflexivity|].
    split; [done|]. split; [split; [done|lia]|].
    split; [done|]. split; [|done]. intros _. eexists. split; [done|].
    fold now. lia.
Qed.

Lemma next_post_time_agrees_witness :
  ∃ t w1 can reason w2,
    Moments.get_next_post_time 0 (Sample.world Sample.offline SharedState.init)
    = (Ok t, w1)
    ∧ Moments.can_post 0 (Sample.world Sample.offline SharedState.init)
      = (Ok (can, reason), w2)
    ∧ (t = None ↔ MAX_MOMENTS ≤ 0).
Proof.
  destruct (next_post_time_agrees 0 (Sample.world Sample.offline SharedState.init))
    as (t & w1 & can & reason & w2 & H1 & H2 & _ & H3 & _).
  by exists t, w1, can, reason, w2.
Defined.

Lemma moments_step_outcome i w c :
  let m := moments (farmers w i) in
  let w' := Moments.step i w c in
  let m' := moments (farmers w' i) in
  moments_frame i w w'
  ∧ ((m' = m ∧ (net_calls w' ≤ S (net_calls w))%nat)
     ∨ (posted m < MAX_MOMENTS ∧ posted m' = posted m + 1
        ∧ net_calls w' = S (net_calls w))).
Proof.
  intros m w' m'. subst w' m'. destruct c; unfold Moments.step.
  - destruct (can_post_total i w) as (can & reason & w1 & Hcan & _ & _).
    rewrite Hcan. cbn [snd].
    destruct (can_post_moments_frame _ _ _ _ _ Hcan) as (Hfr & Hf & Hn).
    split; [done|]. left. rewrite Hf. split; [done|lia].
  - destruct (post_outcome i w) as (r & w' & Hpost & Hfr & Hle & Hcase).
    rewrite Hpost. cbn [snd]. split; [done|].
    destruct Hcase as [(_ & Hlt & Hn & content & t & _ & Hm)|[_ Hm]].
    + right. rewrite Hm. simpl. done.
    + left. done.
Qed.

(** X16.  The quota is an invariant of the scheduler.  From a state with at
    most [MAX_MOMENTS] counted posts (a new scheduler has none), after any
    sequence of [can_post] and [post] calls, whatever the server answers,
    the count has not shrunk and is at most [MAX_MOMENTS] = 5; every
    counted post was paid by a request of its own; and the calls touched
    neither the registry, nor another worker, nor the cached statistics of
    this one. *)
Theorem moments_quota_invariant (i : nat) (cs : list Moments.call) (w : World) :
  posted (moments (farmers w i)) ≤ MAX_MOMENTS →
  let w' := Moments.run i w cs in
  moments_frame i w w'
  ∧ posted (moments (farmers w i)) ≤ posted (moments (farmers w' i)) ≤ 5
  ∧ posted (moments (farmers w' i)) - posted (moments (farmers w i))
    ≤ Z.of_nat (net_calls w' - net_calls w).
Proof.
  revert w. induction cs as [|c cs IH]; intros w Hle; cbv zeta.
  { unfold Moments.run. simpl. split; [apply moments_frame_refl|].
    unfold MAX_MOMENTS in *. lia. }
  unfold Moments.run. simpl. fold (Moments.run i (Moments.step i w c) cs).
  destruct (moments_step_outcome i w c) as (Hfr & Hcase).
  assert (posted (moments (farmers (Moments.step i w c) i)) ≤ MAX_MOMENTS) as Hle'.
  { destruct Hcase as [[-> _]|(Hlt & -> & _)]; lia. }
  destruct (IH _ Hle') as (Hfr' & Hb & Hn).
  split; [by eapply moments_frame_trans|].
  pose proof Hfr as (_ & _ & _ & _ & _ & _ & Hn1 & _).
  pose proof Hfr' as (_ & _ & _ & _ & _ & _ & Hn2 & _).
  destruct Hcase as [[Hm _]|(Hlt & Hm & Hnet)]; rewrite Hm in *; lia.
Qed.

Lemma moments_quota_invariant_witness :
  posted (moments (farmers
     (Moments.run 0 (Sample.world (Sample.answering (PDict Sample.reply_ok))
                                  SharedState.init)
        [Moments.Post; Moments.Post; Moments.CanPost]) 0%nat)) ≤ 5.
Proof.
  apply (moments_quota_invariant 0 [Moments.Post; Moments.Post; Moments.CanPost]
           (Sample.world (Sample.answering (PDict Sample.reply_ok))
                         SharedState.init)).
  unfold MAX_MOMENTS. simpl. lia.
Defined.

Lemma get_next_post_time_total i w :
  ∃ t w1,
    Moments.get_next_post_time i w = (Ok t, w1)
    ∧ env w1 = env w ∧ shared w1 = shared w ∧ farmers w1 = farmers w
    ∧ net_calls w1 = net_calls w
    ∧ t = (let m := moments (farmers w i) in
           if posted m >=? MAX_MOMENTS then None
           else match last_post m with
                | Some last => Some (last + Moments.cooldown)
                | None => Some (clock (env w) (clock_reads w))
                end).
Proof.
  rewrite get_next_post_time_eq. cbv zeta.
  destruct (posted _ >=? _); [by eexists _, _|].
  destruct (last_post _); by eexists _, _.
Qed.

(** X17.  [post_moment] keeps the cached statistics and the saved moment
    state in step with the scheduler.  It never changes another worker.
    When its result reports success, exactly one request was sent, the
    scheduler counted one more post, the cached count equals the new
    count, the registry holds for this account's id the new count with the
    ISO text of the stamp, and the cached next time is the stamp plus the
    cooldown, or nothing once the quota is reached; the success report
    always carries [trust_earned], so the progress line cannot raise.  In
    every other case (a refusal, a failed or malformed reply, an
    exception) the scheduler, the registry and the cached count are as
    before. *)
Theorem post_moment_persists (iso : Z → string) (i : nat) (w : World) :
  let m := moments (farmers w i) in
  ∃ r w',
    Farmer.post_moment iso i w = (r, w')
    ∧ (∀ j, j ≠ i → farmers w' j = farmers w j)
    ∧ if success_of r
      then
        posted m < MAX_MOMENTS
        ∧ posted (moments (farmers w' i)) = posted m + 1
        ∧ moments_posted (stats (farmers w' i)) = posted m + 1
        ∧ net_calls w' = S (net_calls w)
        ∧ ∃ t,
            last_post (moments (farmers w' i)) = Some t
            ∧ SharedState.get_moment_state (id (farmers w i)) (shared w')
              = PDict (<["posted" := PInt (posted m + 1)]>
                       (<["last_post" := PStr (iso t)]> ∅))
            ∧ next_moment (stats (farmers w' i))
              = (if posted m + 1 >=? MAX_MOMENTS then None
                 else Some (t + Moments.cooldown))
      else
        moments (farmers w' i) = m
        ∧ shared w' = shared w
        ∧ moments_posted (stats (farmers w' i))
          = moments_posted (stats (farmers w i)).
Proof.
  intros m.
  destruct (can_post_total i w) as (can & reason & w1 & Hcan & _ & Hlt).
  destruct (can_post_moments_frame _ _ _ _ _ Hcan) as (Hfr1 & Hf1 & Hn1).
  unfold Farmer.post_moment. step_with Hcan.
  destruct can; cbn [negb].
  2: { eexists _, _. split; [apply mret_eq|]. split; [by rewrite Hf1|].
       change (success_of (Ok (Moments.failure reason))) with false. cbv iota.
       rewrite Hf1. destruct Hfr1 as (_ & -> & _). done. }
  destruct (post_outcome i w1) as (r & w2 & Hpost & Hfr2 & Hle & Hcase).
  pose proof (moments_frame_trans _ _ _ _ Hfr1 Hfr2) as Hfr.
  destruct Hfr as (He & Hs & Hf & Hst & Hc & Hi & Hn & Hk).
  destruct Hcase as [(Hsucc & _ & Hnet & content & t & -> & Hm)|[Hfail Hm]].
  - step_with Hpost.
    erewrite bind_ok; [|apply lift_eq]. cbv beta.
    change (truthy _) with true. cbv iota.
    erewrite bind_ok; [|unfold update_stats; unfold_M; simpl; reflexivity].
    match goal with |- ∃ r w', _ ?w0 = _ ∧ _ => remember w0 as w3 eqn:Hw3 end.
    assert (moments (farmers w3 i) = mkMoments (posted m + 1) (Some t)
            ∧ moments_posted (stats (farmers w3 i)) = posted m + 1
            ∧ (∀ j, j ≠ i → farmers w3 j = farmers w j)
            ∧ net_calls w3 = S (net_calls w)
            ∧ shared w3
              = SharedState.save_moment_state iso (id (farmers w i))
                  (posted m + 1) (Some t) (shared w)) as (Hm3 & Hp3 & Hf3 & Hn3 & Hs3).
    { subst w3. simpl. rewrite !decide_True by done. simpl.
      rewrite Hm, Hf1, Hi, Hs. fold m. simpl.
      split; [done|]. split; [done|].
      split; [intros j Hj; rewrite !decide_False by done; by apply Hf|].
      split; [lia|done]. }
    clear Hw3.
    destruct (get_next_post_time_total i w3)
      as (t2 & w4 & Hnext & He4 & Hs4 & Hf4 & Hn4 & Ht2).
    step_with Hnext. unfold update_stats. step.
    eexists _, _. split; [reflexivity|].
    change (success_of _) with true. cbv iota.
    simpl. rewrite !decide_True by done. simpl.
    rewrite Hf4, Hm3, Hp3, Hs4, Hs3, Hn4, Hn3. simpl.
    split; [intros j Hj; rewrite !decide_False by done; by apply Hf3|].
    split; [by apply Hlt|]. split; [done|]. split; [done|]. split; [done|].
    exists t. split; [done|].
    split.
    { unfold SharedState.get_moment_state, SharedState.save_moment_state.
      simpl. by rewrite lookup_insert_eq. }
    rewrite Ht2. cbv zeta. rewrite Hm3. simpl. done.
  - destruct r as [v|e].
    2: { eexists _, _. split; [erewrite bind_raise; [reflexivity|exact Hpost]|].
         split; [done|]. cbn [success_of]. rewrite Hm, Hf1, Hs, Hst. done. }
    step_with Hpost. cbn [success_of] in Hfail.
    destruct (Py.get v "success") as [flag|e] eqn:Hflag.
    2: { eexists _, _. split; [erewrite bind_raise; [reflexivity|apply lift_eq]|].
         split; [done|]. cbn [success_of]. rewrite Hm, Hf1, Hs, Hst. done. }
    step. rewrite Hfail. step.
    destruct (get_next_post_time_total i w2)
      as (t2 & w4 & Hnext & He4 & Hs4 & Hf4 & Hn4 & Ht2).
    step_with Hnext. unfold update_stats. step.
    eexists _, _. split; [reflexivity|].
    cbn [success_of]. rewrite Hflag, Hfail.
    simpl. rewrite !decide_True by done. simpl.
    rewrite Hf4, Hm, Hf1, Hs4, Hs, Hst.
    split; [intros j Hj; rewrite !decide_False by done; by apply Hf|done].
Qed.

Lemma post_moment_persists_witness :
  ∃ r w',
    Farmer.post_moment pretty 0
      (Sample.world (Sample.answering (PDict Sample.reply_ok)) SharedState.init)
    = (r, w')
    ∧ success_of r = true
    ∧ moments_posted (stats (farmers w' 0%nat)) = 1
    ∧ SharedState.get_moment_state "account_1" (shared w')
      = PDict (<["posted" := PInt 1]> (<["last_post" := PStr "0"]> ∅)).
Proof.
  destruct (post_moment_persists pretty 0
              (Sample.world (Sample.answering (PDict Sample.reply_ok))
                            SharedState.init))
    as (r & w' & Heq & _ & H).
  assert (success_of r = true) as Hr.
  { change r with (fst (r, w')). rewrite <- Heq. reflexivity. }
  rewrite Hr in H. destruct H as (_ & Hp & Hc & _ & t & Ht & Hs & _).
  assert (Some t = Some 0) as [= ->].
  { rewrite <- Ht. change w' with (snd (r, w')). rewrite <- Heq. reflexivity. }
  exists r, w'. split; [exact Heq|]. split; [exact Hr|].
  split; [exact Hc|exact Hs].
Defined.

(** ** Balance and dashboard *)

(** X18.  [get_balance] sends exactly one request and touches neither the
    registry, nor the scheduler, nor another worker.  When the reply is a
    dict with a truthy [success], the three cached values become the
    entries [trust_score], [cw_balance] and [cw_staked] of its [data]
    entry as they are, of whatever type, and 0 for a missing entry (all
    three are 0 when [data] itself is missing); a [data] entry that is not a
    dict raises before anything is cached.  A reply without a truthy
    [success] is returned and caches nothing; a reply that is not a dict
    raises. *)
Theorem get_balance_outcome (i : nat) (w : World) :
  let f := farmers w i in
  let result :=
    Http.reply (env w) (net_calls w) (client f)
      (Http.post_request (client f) API_BALANCE Farmer.balance_payload) 30 in
  ∃ r w',
    Farmer.get_balance i w = (r, w')
    ∧ net_calls w' = S (net_calls w)
    ∧ shared w' = shared w
    ∧ (∀ j, j ≠ i → farmers w' j = farmers w j)
    ∧ moments (farmers w' i) = moments f
    ∧ match result with
      | PDict d =>
          if truthy (default PNone (d !! "success"))
          then
            match default (PDict ∅) (d !! "data") with
            | PDict data =>
                r = Ok result
                ∧ trust_score (stats (farmers w' i))
                  = default (PInt 0) (data !! "trust_score")
                ∧ cw_balance (stats (farmers w' i))
                  = default (PInt 0) (data !! "cw_balance")
                ∧ cw_staked (stats (farmers w' i))
                  = default (PInt 0) (data !! "cw_staked")
            | _ => r = Raise AttributeError ∧ stats (farmers w' i) = stats f
            end
          else r = Ok result ∧ stats (farmers w' i) = stats f
      | _ => r = Raise AttributeError ∧ stats (farmers w' i) = stats f
      end.
Proof.
  intros f result. unfold Farmer.get_balance.
  step. step_with post_reply. fold f. fold result.
  destruct result as [| | | | |d] eqn:Hres;
    try (eexists _, _; split; [erewrite bind_raise; [reflexivity|apply lift_eq]|];
         simpl; done).
  step. destruct (truthy (default PNone (d !! "success"))).
  2: { eexists _, _. split; [apply mret_eq|]. simpl. done. }
  step. destruct (default (PDict ∅) (d !! "data")) as [| | | | |data] eqn:Hdata;
    try (eexists _, _; split; [erewrite bind_raise; [reflexivity|apply lift_eq]|];
         simpl; done).
  unfold update_stats. do 6 step.
  eexists _, _. split; [apply mret_eq|].
  simpl. rewrite !decide_True by done. simpl.
  split; [done|]. split; [done|].
  split; [intros j Hj; by rewrite !decide_False by done|]. done.
Qed.







#[local] Instance clock_only_refl : Reflexive clock_only.
Proof. intros w. unfold clock_only. by repeat split. Qed.

#[local] Instance clock_only_trans : Transitive clock_only.
Proof.
  intros w1 w2 w3 (?&?&?&?&?&?&?) (?&?&?&?&?&?&?).
  unfold clock_only. repeat split; congruence.
Qed.

Lemma clock_only_advance w : clock_only w (clock_advance w).
Proof. unfold clock_only. by repeat split. Qed.



(** ** Configuration and controller *)

Lemma rstrip_all p s :
  Str.all_chars (λ c, negb (p c)) s = true → Str.rstrip_by p s = s.
Proof.
  induction s as [|c s IH]; [done|]. cbn [Str.all_chars Str.rstrip_by].
  intros [Hc Hs]%andb_true_iff. rewrite (IH Hs).
  destruct s; [|done]. by destruct (p c).
Qed.

Lemma lstrip_all p s :
  Str.all_chars (λ c, negb (p c)) s = true → Str.lstrip_by p s = s.
Proof. destruct s as [|c s]; [done|]. simpl. by destruct (p c). Qed.

Lemma all_chars_impl (p q : ascii → bool) s :
  (∀ c, p c = true → q c = true) →
  Str.all_chars p s = true → Str.all_chars q s = true.
Proof.
  intros Hpq. induction s as [|c s IH]; [done|]. simpl.
  intros [Hc Hs]%andb_true_iff. by rewrite (Hpq c Hc), IH.
Qed.

Lemma digit_not_space c : Str.is_digit c = true → negb (Str.is_space c) = true.
Proof.
  unfold Str.is_digit, Str.is_space. cbv zeta.
  generalize (Str.code c). intros n H.
  apply andb_true_iff in H as [H1%N.leb_le H2%N.leb_le].
  apply negb_true_iff.
  repeat (apply orb_false_iff; split); try apply andb_false_iff.
  - right. apply N.leb_gt. lia.
  - right. apply N.leb_gt. lia.
  - apply N.eqb_neq. lia.
  - apply N.eqb_neq. lia.
Qed.

Lemma digit_not_char (u : ascii) c :
  Str.is_digit u = false → Str.is_digit c = true → Ascii.eqb c u = false.
Proof.
  intros Hu Hc. destruct (Ascii.eqb_spec c u) as [->|]; [congruence|done].
Qed.

Lemma strip_digits s :
  Str.all_chars Str.is_digit s = true → Str.strip s = s.
Proof.
  intros H. apply (all_chars_impl _ _ _ digit_not_space) in H.
  unfold Str.strip, Str.strip_by. by rewrite lstrip_all, rstrip_all.
Qed.

Lemma digits_value_all s : ∀ acc,
  Str.all_chars Str.is_digit s = true →
  Str.digits_value s acc
  = Some (fold_left (λ a c, 10 * a + Str.digit_value c)
                    (list_ascii_of_string s) acc).
Proof.
  induction s as [|c s IH]; intros acc; [done|].
  cbn [Str.all_chars]. intros [Hc Hs]%andb_true_iff.
  cbn [Str.digits_value list_ascii_of_string fold_left]. rewrite Hc. cbv zeta.
  destruct s as [|u s']; [done|].
  pose proof Hs as Hs'. cbn [Str.all_chars] in Hs'.
  apply andb_true_iff in Hs' as [Hu _].
  rewrite (digit_not_char "_" u) by done. by apply IH.
Qed.

Lemma pretty_N_char_digit x :
  (x < 10)%N →
  Str.is_digit (pretty_N_char x) = true
  ∧ Str.digit_value (pretty_N_char x) = Z.of_N x.
Proof.
  intros Hx.
  assert (x ∈ [0; 1; 2; 3; 4; 5; 6; 7; 8; 9]%N) as Hin.
  { assert (x = 0 ∨ x = 1 ∨ x = 2 ∨ x = 3 ∨ x = 4 ∨ x = 5 ∨ x = 6
            ∨ x = 7 ∨ x = 8 ∨ x = 9)%N as Hc by lia.
    repeat (destruct Hc as [->|Hc]; [set_solver|]). subst. set_solver. }
  repeat (apply elem_of_cons in Hin as [->|Hin]; [by split|]).
  by apply elem_of_nil in Hin.
Qed.

Lemma pretty_N_go_digits x : ∀ s,
  Str.all_chars Str.is_digit s = true →
  Str.all_chars Str.is_digit (pretty_N_go x s) = true
  ∧ (s ≠ "" → pretty_N_go x s ≠ "")
  ∧ ∃ k, 0 ≤ k ∧ ∀ acc,
      Str.parse_digits acc (pretty_N_go x s)
      = Str.parse_digits (acc * 10 ^ k + Z.of_N x) s.
Proof.
  induction (N.lt_wf_0 x) as [x _ IH]; intros s Hs.
  assert (x = 0 ∨ 0 < x)%N as [->|Hx] by lia.
  { rewrite pretty_N_go_0. split; [done|]. split; [done|].
    exists 0. split; [done|].
    intros acc. f_equal. lia. }
  rewrite pretty_N_go_step by done.
  destruct (pretty_N_char_digit (x `mod` 10)%N) as [Hd Hv].
  { by apply N.mod_lt. }
  destruct (IH (x `div` 10)%N) with (s := String (pretty_N_char (x `mod` 10)) s)
    as (Hall & Hne & k & Hk & Hparse).
  { by apply N.div_lt. }
  { cbn [Str.all_chars]. by rewrite Hd, Hs. }
  split; [done|]. split; [intros _; by apply Hne|]. exists (k + 1). split; [lia|]. intros acc.
  rewrite Hparse. unfold Str.parse_digits.
  cbn [list_ascii_of_string fold_left]. f_equal. rewrite Hv.
  rewrite Z.pow_add_r by lia. rewrite (N.div_mod x 10) at 3 by done. lia.
Qed.

Lemma pretty_Z_digits (n : Z) :
  0 ≤ n →
  Str.all_chars Str.is_digit (pretty n) = true
  ∧ pretty n ≠ ""
  ∧ Str.parse_digits 0 (pretty n) = n.
Proof.
  intros Hn. destruct n as [|p|p]; [done| |lia].
  unfold pretty, pretty_Z, pretty, pretty_positive, pretty, pretty_N.
  rewrite decide_False by done.
  destruct (pretty_N_go_digits (N.pos p) "" eq_refl)
    as (Hall & _ & k & Hk & Hparse).
  split; [done|]. split.
  - rewrite pretty_N_go_step by lia.
    destruct (pretty_N_char_digit (N.pos p `mod` 10)%N) as [Hd _].
    { by apply N.mod_lt. }
    apply pretty_N_go_digits; [|done]. cbn [Str.all_chars]. by rewrite Hd.
  - rewrite Hparse. unfold Str.parse_digits. simpl. lia.
Qed.

Lemma int_digits s :
  Str.all_chars Str.is_digit s = true → s ≠ "" →
  Str.int s = Ok (Str.parse_digits 0 s).
Proof.
  intros Hs Hne. unfold Str.int. rewrite (strip_digits s Hs).
  destruct s as [|c s']; [done|].
  pose proof Hs as Hc. cbn [Str.all_chars] in Hc.
  apply andb_true_iff in Hc as [Hc _].
  rewrite (digit_not_char "-" c), (digit_not_char "+" c) by done.
  by rewrite (digits_value_all _ 0 Hs).
Qed.

Lemma int_pad2 (n : Z) :
  0 ≤ n →
  Str.all_chars Str.is_digit (Moments.pad2 n) = true
  ∧ Str.int (Moments.pad2 n) = Ok n.
Proof.
  intros Hn. destruct (pretty_Z_digits n Hn) as (Hall & Hne & Hparse).
  unfold Moments.pad2. destruct (n <? 10).
  - assert (Str.all_chars Str.is_digit ("0" +:+ pretty n) = true) as Hall'.
    { change ("0" +:+ pretty n) with (String "0" (pretty n)).
      cbn [Str.all_chars]. by rewrite Hall. }
    split; [done|]. rewrite int_digits by done. f_equal.
    etrans; [|exact Hparse]. reflexivity.
  - split; [done|]. rewrite int_digits by done. by f_equal.
Qed.

Lemma split_on_none sep s :
  Str.all_chars (λ c, negb (Ascii.eqb c sep)) s = true →
  Str.split_on sep s = [s].
Proof.
  induction s as [|c s IH]; [done|]. cbn [Str.all_chars Str.split_on].
  intros [Hc Hs]%andb_true_iff. apply negb_true_iff in Hc.
  by rewrite Hc, (IH Hs).
Qed.

Lemma account_id_index (i : nat) :
  Str.int (List.last (Str.split_on "_" (FarmerController.account_id i)) "")
  = Ok (Z.of_nat i + 1).
Proof.
  destruct (int_pad2 (Z.of_nat i + 1)) as [Hall Hint]; [lia|].
  unfold FarmerController.account_id.
  set (t := Moments.pad2 _) in *.
  change ("acc_" +:+ t)
    with (String "a" (String "c" (String "c" (String "_" t)))).
  assert (Str.split_on "_" t = [t]) as Hsplit.
  { apply split_on_none. revert Hall. apply all_chars_impl.
    intros c Hc. apply negb_true_iff. by apply digit_not_char. }
  cbn [Str.split_on]. rewrite Hsplit. exact Hint.
Qed.

Lemma init_numbered account_id api_key proxy w n :
  Str.int (List.last (Str.split_on "_" account_id) "") = Ok n →
  ∃ style,
    LLMClient.STYLES !! Z.to_nat ((n - 1) `mod` 9) = Some style
    ∧ Farmer.__init__ account_id api_key proxy w
      = (Ok (mkFarmer account_id (mkClient api_key proxy) (mkMoments 0 None)
               (mkStats account_id (PInt 0) (PInt 0) (PInt 0) 0 0 0 0 0 "idle"
                        None None (clock (env w) (clock_reads w)))
               false style),
         clock_advance w).
Proof.
  intros Hn.
  destruct (lookup_lt_is_Some_2 LLMClient.STYLES (Z.to_nat ((n - 1) `mod` 9)))
    as [style Hstyle].
  { change (length LLMClient.STYLES) with 9%nat.
    pose proof (Z.mod_pos_bound (n - 1) 9). lia. }
  exists style. split; [done|].
  unfold Farmer.__init__. step. rewrite Hn. step.
  change (Z.of_nat (length LLMClient.STYLES)) with 9. rewrite Hstyle. step.
  reflexivity.
Qed.


Lemma account_id_inj : Inj (=) (=) FarmerController.account_id.
Proof.
  intros i j Hij. pose proof (account_id_index i) as Hi.
  rewrite Hij, account_id_index in Hi. injection Hi. lia.
Qed.

Lemma create_spec (api_keys proxies : list string) : ∀ (i : nat) (w : World),
  ∃ fs w',
    FarmerController.create i api_keys proxies w = (Ok fs, w')
    ∧ clock_only w w'
    ∧ length fs = length api_keys
    ∧ id <$> fs = FarmerController.account_id <$> seq i (length api_keys)
    ∧ ∀ k f, fs !! k = Some f →
        id f = FarmerController.account_id (i + k)
        ∧ api_keys !! k = Some (api_key (client f))
        ∧ proxy (client f) = proxies !! (i + k)%nat
        ∧ LLMClient.STYLES !! ((i + k) `mod` 9)%nat = Some (style f)
        ∧ moments f = mkMoments 0 None
        ∧ running f = false.
Proof.
  induction api_keys as [|key rest IH]; intros i w.
  { exists [], w. split; [done|]. split; [done|]. split; [done|].
    split; [done|]. intros k f Hk. by rewrite lookup_nil in Hk. }
  cbn [FarmerController.create].
  destruct (init_numbered (FarmerController.account_id i) key (proxies !! i) w
              _ (account_id_index i)) as (sty & Hstyle & Hinit).
  step_with Hinit.
  destruct (IH (S i) (clock_advance w)) as (fs & w' & Hrest & Hfr & Hlen & Hids & Hall).
  step_with Hrest. eexists _, _. split; [apply mret_eq|].
  split; [etrans; [apply clock_only_advance|done]|].
  split; [simpl; by rewrite Hlen|].
  split; [rewrite fmap_cons, Hids; reflexivity|].
  intros [|k] f Hk.
  - injection Hk as <-. cbn [id client api_key proxy style moments running].
    rewrite Nat.add_0_r. split; [done|]. split; [done|]. split; [done|].
    split; [|done]. rewrite <- Hstyle. f_equal.
    replace (Z.of_nat i + 1 - 1) with (Z.of_nat i) by lia.
    change 9 with (Z.of_nat 9). rewrite <- Nat2Z.inj_mod. symmetry. apply Nat2Z.id.
  - replace (i + S k)%nat with (S i + k)%nat by lia. by apply Hall.
Qed.

(** X21.  The loop of [setup] creates one worker per API key and never
    raises.  Worker number [k] (from 0) has the id [acc_NN] for [k + 1]
    written with at least two digits, the key number [k], the proxy number
    [k] if there is one and no proxy otherwise, and the style number
    [k mod 9]; it starts stopped with no moment posted.  The ids are
    pairwise different.  Only the clock is read. *)
Theorem setup_creates_workers (api_keys proxies : list string) (w : World) :
  ∃ fs w',
    FarmerController.create 0 api_keys proxies w = (Ok fs, w')
    ∧ clock_only w w'
    ∧ length fs = length api_keys
    ∧ NoDup (id <$> fs)
    ∧ ∀ k f, fs !! k = Some f →
        id f = "acc_" +:+ Moments.pad2 (Z.of_nat k + 1)
        ∧ api_keys !! k = Some (api_key (client f))
        ∧ proxy (client f) = proxies !! k
        ∧ LLMClient.STYLES !! (k `mod` 9)%nat = Some (style f)
        ∧ moments f = mkMoments 0 None
        ∧ running f = false.
Proof.
  destruct (create_spec api_keys proxies 0 w)
    as (fs & w' & Heq & Hfr & Hlen & Hids & Hall).
  exists fs, w'. split; [done|]. split; [done|]. split; [done|].
  split.
  - rewrite Hids. apply (@NoDup_fmap_2 _ _ _ account_id_inj). apply NoDup_seq.
  - intros k f Hk. by apply Hall.
Qed.

Lemma rstrip_unfold p c s :
  Str.rstrip_by p (String c s)
  = match Str.rstrip_by p s with
    | "" => if p c then "" else String c ""
    | String d r => String c (String d r)
    end.
Proof. reflexivity. Qed.

Lemma rstrip_idem p s :
  Str.rstrip_by p (Str.rstrip_by p s) = Str.rstrip_by p s.
Proof.
  induction s as [|c s IH]; [done|]. rewrite rstrip_unfold.
  destruct (Str.rstrip_by p s) as [|d r] eqn:Hr.
  - destruct (p c) eqn:Hc; [done|]. simpl. by rewrite Hc.
  - by rewrite rstrip_unfold, IH.
Qed.

Lemma rstrip_cons_keep p c r :
  p c = false → Str.rstrip_by p (String c r) = String c (Str.rstrip_by p r).
Proof. intros Hc. cbn [Str.rstrip_by]. destruct (Str.rstrip_by p r); by rewrite ?Hc. Qed.

Lemma lstrip_head p s :
  Str.lstrip_by p s = ""
  ∨ ∃ c r, Str.lstrip_by p s = String c r ∧ p c = false.
Proof.
  induction s as [|c s IH]; [by left|]. simpl.
  destruct (p c) eqn:Hc; [done|]. right. by exists c, s.
Qed.

Lemma strip_idem s : Str.strip (Str.strip s) = Str.strip s.
Proof.
  unfold Str.strip, Str.strip_by.
  destruct (lstrip_head Str.is_space s) as [->|(c & r & -> & Hc)]; [done|].
  rewrite (rstrip_cons_keep _ _ _ Hc). simpl Str.lstrip_by at 1. rewrite Hc.
  rewrite (rstrip_cons_keep _ _ _ Hc). by rewrite rstrip_idem.
Qed.

Lemma load_lines_fixed (l : list string) :
  Forall (λ key, Str.strip key = key
                 ∧ negb (String.eqb key "") && negb (Str.is_comment key) = true) l →
  load_lines (Some l) = l.
Proof.
  cbn [load_lines]. induction 1 as [|key l [Hs Hp] _ IH]; [done|].
  rewrite fmap_cons, Hs, filter_cons_True by done. by rewrite IH.
Qed.

(** X22.  [load_api_keys] and [load_proxies] return the lines of the file
    in their order, each without the white space around it, leaving out
    the empty ones and the comments: no entry is empty, starts with [#],
    or has white space at either end, and each is a stripped line of the
    file.  A missing file gives the empty list.  Loading a file made of
    the entries returned gives the same entries. *)
Theorem load_lines_clean (file : option (list string)) :
  load_proxies file = load_api_keys file
  ∧ (file = None → load_api_keys file = [])
  ∧ (∀ key, key ∈ load_api_keys file →
        key ≠ "" ∧ Str.is_comment key = false ∧ Str.strip key = key
        ∧ ∃ lines line, file = Some lines ∧ line ∈ lines
                        ∧ key = Str.strip line)
  ∧ (∀ lines, file = Some lines →
        load_api_keys file `sublist_of` Str.strip <$> lines)
  ∧ load_api_keys (Some (load_api_keys file)) = load_api_keys file.
Proof.
  unfold load_proxies, load_api_keys.
  assert (∀ key, key ∈ load_lines file →
            (negb (String.eqb key "") && negb (Str.is_comment key) = true)
            ∧ Str.strip key = key
            ∧ ∃ lines line, file = Some lines ∧ line ∈ lines
                            ∧ key = Str.strip line) as Hkeys.
  { intros key. destruct file as [lines|]; cbn [load_lines].
    2: { intros H. by apply elem_of_nil in H. }
    intros [Hp (line & -> & Hin)%list_elem_of_fmap]%list_elem_of_filter.
    split; [done|]. split; [apply strip_idem|]. by exists lines, line. }
  split; [done|]. split; [by intros ->|]. split.
  { intros key Hin. destruct (Hkeys key Hin) as (Hp & Hs & Hex).
    apply andb_true_iff in Hp as [Hne%negb_true_iff Hc%negb_true_iff].
    split; [intros Heq; by rewrite Heq in Hne|]. done. }
  split; [intros lines ->; apply sublist_filter|].
  apply load_lines_fixed. apply Forall_forall. intros key Hin.
  destruct (Hkeys key Hin) as (Hp & Hs & _). done.
Qed.

(** ** Challenges without credit *)

(** X23.  A challenge answered without credit.  When the response embeds a
    well-formed challenge and the reply to the answer is a dict, then: a
    reply with one of the statuses 500, 502, 503, 504 gives the
    [server_error] result with [retry_after] 60, whatever else the reply
    holds; otherwise a reply without a truthy [hash] or [cw_earned] whose
    error is not [CHALLENGE_FAILED] gives [challenge_used] for the error
    [CHALLENGE_USED] and is returned as it is for anything else.  In each
    of these cases exactly one request was sent and neither the registry
    nor any worker's statistics changed. *)
Theorem handle_challenge_no_credit (i : nat) (token_id depth : Z)
    (challenge_response : pyval) (d : gmap string pyval) (w : World) :
  has_challenge challenge_response →
  (∀ req, Http.reply (env w) (net_calls w) (client (farmers w i)) req 30
          = PDict d) →
  in_ints (default (PInt 0) (d !! "status")) Farmer.server_statuses = true
  ∨ (truthy (default PNone (d !! "hash"))
     || truthy (default PNone (d !! "cw_earned")) = false
     ∧ eq_str (default PNone (d !! "error")) "CHALLENGE_FAILED" = false) →
  ∃ w',
    Farmer.handle_challenge i token_id challenge_response depth w
    = (Ok (if in_ints (default (PInt 0) (d !! "status")) Farmer.server_statuses
           then Farmer.server_error
           else if eq_str (default PNone (d !! "error")) "CHALLENGE_USED"
                then Farmer.failure "challenge_used"
                else PDict d),
       w')
    ∧ shared w' = shared w
    ∧ farmers w' = farmers w
    ∧ net_calls w' = S (net_calls w).
Proof.
  intros (r & ch & cid & prompt & -> & Hch & Hid & Hcid & Hp & Hne)
    Hreply Hcase.
  destruct (solve_challenge_text prompt (style (farmers w i)) w)
    as (answer & w1 & Hsolve & He1 & Hs1 & Hf1 & Hn1 & _).
  rewrite Farmer.handle_challenge_equation_1.
  unfold get_default, Py.get. rewrite Hch. simpl default.
  step. rewrite Hid. simpl default. step. rewrite Hp. simpl default. step.
  rewrite Hcid, (truthy_text _ Hne). cbn [negb orb].
  step. step_with Hsolve. cbv zeta.
  step_with post_reply. rewrite He1, Hn1, Hreply.
  step.
  destruct (in_ints (default (PInt 0) (d !! "status")) Farmer.server_statuses)
    eqn:Hstatus.
  { eexists. split; [apply mret_eq|]. simpl. by rewrite Hs1, Hf1, Hn1. }
  destruct Hcase as [?|[Hnone Herr]]; [done|].
  do 2 step. rewrite Hnone. step. rewrite Herr.
  destruct (eq_str (default PNone (d !! "error")) "CHALLENGE_USED");
    (eexists; split; [apply mret_eq|]; simpl; by rewrite Hs1, Hf1, Hn1).
Qed.

Lemma handle_challenge_no_credit_witness :
  ∃ w',
    Farmer.handle_challenge 0 77 Sample.challenge_required 0
      (Sample.world
         (Sample.answering (PDict (<["error" := PStr "CHALLENGE_USED"]> ∅)))
         SharedState.init)
    = (Ok (Farmer.failure "challenge_used"), w')
    ∧ shared w' = SharedState.init.
Proof.
  destruct (handle_challenge_no_credit 0 77 0 Sample.challenge_required
              (<["error" := PStr "CHALLENGE_USED"]> ∅)
              (Sample.world
                 (Sample.answering
                    (PDict (<["error" := PStr "CHALLENGE_USED"]> ∅)))
                 SharedState.init))
    as (w' & Heq & Hs & _).
  - eexists _, _, _, _. repeat split; try reflexivity. discriminate.
  - intros req. reflexivity.
  - right. split; reflexivity.
  - exists w'. split; [exact Heq|exact Hs].
Defined.
